(** * Pi-NAS-Builder: the checkpointed provisioning script [nas.py]

    A shallow embedding of the installer's state machine ([setup]), of its
    validators, of its two command runners ([run], [run_safe]), of the
    confirmation prompt and of the checkpoint store ([get_step], [set_step]),
    followed by the properties of the specification that concern them.

    The script is effectful Python.  Every function is embedded as a
    computation in a small monad [M] that threads the part of the machine the
    script can change (the checkpoint file, the pending operator answers, the
    number of subprocesses launched), reads the rest of the machine through
    an immutable [host] record, and emits the list of observable [event]s
    (prints, subprocess launches, prompts, file writes, sleeps) in the order
    in which the script performs them.  [sys.exit] and uncaught exceptions
    are outcomes that short-circuit the rest of the computation. *)

From Stdlib Require Import ZArith List String Ascii Bool Lia.
From Stdlib Require Import Decimal DecimalString DecimalPos DecimalZ.
Import ListNotations.

Open Scope string_scope.
Open Scope Z_scope.

(* ================================================================== *)
(** ** Python built-ins used by the script (ASCII strings) *)
(* ================================================================== *)

Module Py.

Definition nl : string := String (ascii_of_nat 10) EmptyString.

(** [str.lower()], on the ASCII letters. *)
Definition lower_ascii (c : ascii) : ascii :=
  let n := nat_of_ascii c in
  if (65 <=? n)%nat && (n <=? 90)%nat then ascii_of_nat (n + 32) else c.

Fixpoint lower (s : string) : string :=
  match s with
  | EmptyString => EmptyString
  | String c r => String (lower_ascii c) (lower r)
  end.

(** [str.isspace()] on one ASCII character: TAB..CR, FS..US and space. *)
Definition is_space (c : ascii) : bool :=
  let n := nat_of_ascii c in
  ((9 <=? n)%nat && (n <=? 13)%nat) || ((28 <=? n)%nat && (n <=? 32)%nat).

Fixpoint lstrip (s : string) : string :=
  match s with
  | EmptyString => EmptyString
  | String c r => if is_space c then lstrip r else s
  end.

Fixpoint rstrip (s : string) : string :=
  match s with
  | EmptyString => EmptyString
  | String c r =>
      match rstrip r with
      | EmptyString => if is_space c then EmptyString else String c EmptyString
      | r' => String c r'
      end
  end.

(** No character of [s] is whitespace. *)
Fixpoint no_space (s : string) : bool :=
  match s with
  | EmptyString => true
  | String c r => negb (is_space c) && no_space r
  end.

(** [str.strip()]. *)
Definition strip (s : string) : string := rstrip (lstrip s).

(** [sep.join(parts)]. *)
Fixpoint join (sep : string) (parts : list string) : string :=
  match parts with
  | [] => EmptyString
  | [p] => p
  | p :: rest => p ++ sep ++ join sep rest
  end.

(** [s * n]. *)
Fixpoint repeat_str (s : string) (n : nat) : string :=
  match n with
  | O => EmptyString
  | S k => s ++ repeat_str s k
  end.

(** [needle in hay]. *)
Fixpoint contains (needle hay : string) : bool :=
  String.prefix needle hay ||
  match hay with
  | EmptyString => false
  | String _ r => contains needle r
  end.

(** [s.split()[0]]: the first whitespace-delimited word, [None] standing
    for the [IndexError] of an all-blank string. *)
Fixpoint word (s : string) : string :=
  match s with
  | EmptyString => EmptyString
  | String c r => if is_space c then EmptyString else String c (word r)
  end.

Definition first_word (s : string) : option string :=
  match lstrip s with
  | EmptyString => None
  | t => Some (word t)
  end.

(** [str(n)] for an integer. *)
Definition str (n : Z) : string := NilZero.string_of_int (Z.to_int n).

Definition is_digit (c : ascii) : bool :=
  let n := nat_of_ascii c in (48 <=? n)%nat && (n <=? 57)%nat.

(** The digit part of an integer literal accepted by [int()]: decimal
    digits, with single underscores allowed between two digits.  The
    result is the digits with the underscores removed; [None] stands for
    [ValueError]. *)
Fixpoint digit_groups (after_digit : bool) (s : string) : option string :=
  match s with
  | EmptyString => if after_digit then Some EmptyString else None
  | String c r =>
      if Ascii.eqb c "_" then
        if after_digit then digit_groups false r else None
      else if is_digit c then option_map (String c) (digit_groups true r)
      else None
  end.

Definition nat_of_str (s : string) : option Z :=
  match digit_groups false s with
  | Some d => option_map Z.of_uint (NilZero.uint_of_string d)
  | None => None
  end.

(** [int(s)] in base 10: surrounding whitespace is ignored, one sign is
    allowed; [None] stands for [ValueError].  (The bound that recent
    interpreters put on the number of digits is not modelled.) *)
Definition int (s : string) : option Z :=
  match strip s with
  | String "-" r => option_map Z.opp (nat_of_str r)
  | String "+" r => nat_of_str r
  | t => nat_of_str t
  end.

(** [a or b] on two optional strings ([None] and [EmptyString] are falsy). *)
Definition or_else (a b : option string) : option string :=
  match a with
  | Some EmptyString | None => b
  | Some _ => a
  end.

(** [f"{x}"] of an optional string. *)
Definition fmt (x : option string) : string :=
  match x with
  | Some s => s
  | None => "None"
  end.

Definition truthy (s : string) : bool :=
  match s with
  | EmptyString => false
  | _ => true
  end.



End Py.

(* ================================================================== *)
(** ** The machine the script runs on *)
(* ================================================================== *)

(** The user settings at the top of the script. *)
Record config := mkConfig {
  RAID_LEVEL : Z;
  RAID_DEVICES : list string;
  RAID_DEVICE_NAME : string;
  FILESYSTEM_TYPE : string;
  MOUNT_POINT_BASE : string;
  SAMBA_SHARE_NAME : string;
  CLAMAV_LOG_FILE : string;
  FLASK_PORT : Z
}.

(** The settings as shipped. *)
Definition shipped_config : config :=
  {| RAID_LEVEL := 10;
     RAID_DEVICES := ["/dev/sda"; "/dev/sdb"; "/dev/sdc"; "/dev/sdd"];
     RAID_DEVICE_NAME := "/dev/md0";
     FILESYSTEM_TYPE := "ext4";
     MOUNT_POINT_BASE := "storage";
     SAMBA_SHARE_NAME := "Public";
     CLAMAV_LOG_FILE := "/var/log/clamav_scan.log";
     FLASK_PORT := 5000 |}.

Definition FLAG_FILE : string := "/var/lib/mysetup_step".
Definition ALLOWED_RAID_LEVELS : list Z := [0; 1; 5; 10].

(** [subprocess.CompletedProcess]. *)
Record CompletedProcess := mkCompleted {
  returncode : Z;
  stdout : string;
  stderr : string
}.

(** What [subprocess.run] can do without [check=True]: complete, exceed the
    timeout (the exception carries the output captured so far), or fail to
    start the program ([OSError] and the like). *)
Inductive proc_outcome :=
| Completed (p : CompletedProcess)
| TimeoutExpired (out err : string)
| SpawnError.

(** The checkpoint file: missing, present but failing to open, read or
    decode, or present with a text content. *)
Inductive flag_state :=
| Absent
| Unreadable
| Content (text : string).

(** What [with open(path, mode) as f: f.write(text)] can do: succeed, raise
    in [open] (nothing touched), or raise after [open] succeeded (in mode
    ["w"] the file has been truncated by then). *)
Inductive write_outcome := WriteDone | OpenRaises | WriteRaises.

Inductive write_mode := ModeW | ModeA.

(** The part of the machine that the script only reads.  Subprocess results
    are given by the position of the launch in the run (the [n]-th launch)
    and by its arguments.  The external programs are assumed not to touch
    the checkpoint file. *)
Record host := mkHost {
  cfg : config;
  euid : Z;
  getenv : string -> option string;
  path_exists : string -> bool;
  spawn : nat -> list string -> option Z -> proc_outcome;
  file_write : string -> write_outcome;
  script_path : string;
  (** [str(ipaddress.IPv4Interface(s).network.network_address)], [None]
      when it raises. *)
  ipv4_network_address : string -> option string;
  (** [str(e)] for the [CalledProcessError] of a command and a return code. *)
  called_process_error_str : list string -> Z -> string;
  (** [str(e)] for the exception raised when writing to a path fails. *)
  write_error_str : string -> string
}.

Record world := mkWorld {
  machine : host;
  flag : flag_state;
  clock : nat;
  stdin : list string
}.

Inductive event :=
| EvPrint (text : string)
| EvExec (argv : list string) (timeout : option Z)
| EvInput (prompt : string) (answer : option string)
| EvWrite (path : string) (mode : write_mode) (text : string) (res : write_outcome)
| EvSleep (seconds : Z).

Inductive exn := EOFError | OSError.

Inductive outcome (A : Type) :=
| Returned (a : A)
| Exited (code : Z)
| Raised (e : exn).

Arguments Returned {A} a.
Arguments Exited {A} code.
Arguments Raised {A} e.

(** A computation: from a world to an outcome, the world it leaves and the
    events it emitted, oldest first. *)
Definition M (A : Type) : Type := world -> outcome A * world * list event.

Definition ret {A} (a : A) : M A := fun w => (Returned a, w, []).

Definition bind {A B} (m : M A) (k : A -> M B) : M B :=
  fun w =>
    match m w with
    | (Returned a, w1, e1) =>
        match k a w1 with
        | (r, w2, e2) => (r, w2, (e1 ++ e2)%list)
        end
    | (Exited c, w1, e1) => (Exited c, w1, e1)
    | (Raised x, w1, e1) => (Raised x, w1, e1)
    end.

Notation "x <- m ;; k" := (bind m (fun x => k))
  (at level 61, m at next level, right associativity).
Notation "m ;; k" := (bind m (fun _ => k))
  (at level 61, right associativity).

Definition result_of {A} (t : outcome A * world * list event) : outcome A := fst (fst t).
Definition world_of {A} (t : outcome A * world * list event) : world := snd (fst t).
Definition events_of {A} (t : outcome A * world * list event) : list event := snd t.

(** *** Primitive effects *)

Definition sys_exit {A} (code : Z) : M A := fun w => (Exited code, w, []).
Definition raise {A} (e : exn) : M A := fun w => (Raised e, w, []).
Definition ask {A} (f : host -> A) : M A := fun w => (Returned (f (machine w)), w, []).
Definition print (text : string) : M unit := fun w => (Returned tt, w, [EvPrint text]).
Definition sleep (seconds : Z) : M unit := fun w => (Returned tt, w, [EvSleep seconds]).

(** [subprocess.run(argv, text=True, capture_output=True, timeout=t)]. *)
Definition subprocess_run (argv : list string) (t : option Z) : M proc_outcome :=
  fun w =>
    (Returned (spawn (machine w) (clock w) argv t),
     mkWorld (machine w) (flag w) (S (clock w)) (stdin w),
     [EvExec argv t]).

(** [input(prompt)]: the next line typed by the operator, [EOFError] when
    there is none. *)
Definition input (prompt : string) : M string :=
  fun w =>
    match stdin w with
    | [] => (Raised EOFError, w, [EvInput prompt None])
    | a :: rest =>
        (Returned a, mkWorld (machine w) (flag w) (clock w) rest,
         [EvInput prompt (Some a)])
    end.

(** [os.path.exists(path)]. *)
Definition os_path_exists (path : string) : M bool :=
  fun w =>
    (Returned (if String.eqb path FLAG_FILE
               then match flag w with Absent => false | _ => true end
               else path_exists (machine w) path),
     w, []).

(** The checkpoint file after a write of [text] that ended as [res]. *)
Definition flag_after (mode : write_mode) (text : string) (res : write_outcome)
    (old : flag_state) : flag_state :=
  match res, mode with
  | OpenRaises, _ => old
  | WriteDone, ModeW => Content text
  | WriteRaises, ModeW => Content EmptyString
  | WriteDone, ModeA =>
      match old with
      | Content t => Content (t ++ text)
      | Absent => Content text
      | Unreadable => Unreadable
      end
  | WriteRaises, ModeA =>
      match old with
      | Absent => Content EmptyString
      | _ => old
      end
  end.

(** [with open(path, mode) as f: f.write(text)], returning how it ended. *)
Definition write_file (path : string) (mode : write_mode) (text : string) : M write_outcome :=
  fun w =>
    let res := file_write (machine w) path in
    (Returned res,
     mkWorld (machine w)
       (if String.eqb path FLAG_FILE then flag_after mode text res (flag w) else flag w)
       (clock w) (stdin w),
     [EvWrite path mode text res]).

(** [for x in xs: body(x)]. *)
Fixpoint for_each {A} (xs : list A) (body : A -> M unit) : M unit :=
  match xs with
  | [] => ret tt
  | x :: rest => body x ;; for_each rest body
  end.

Definition when (b : bool) (m : M unit) : M unit := if b then m else ret tt.

(* ================================================================== *)
(** ** The script *)
(* ================================================================== *)

Module Nas.

Import Py.

(** *** Validators *)

Definition level_allowed (level : Z) : bool :=
  existsb (Z.eqb level) ALLOWED_RAID_LEVELS.

(** The [if]/[elif] chain of [validate_config]: the error message of the
    first violated rule, if any. *)
Definition cardinality_error (level num_devices : Z) : option string :=
  if (level =? 1) && negb (num_devices =? 2) then
    Some ("RAID 1은 정확히 2개의 디스크가 필요합니다. (현재: " ++ str num_devices ++ "개)")
  else if (level =? 5) && (num_devices <? 3) then
    Some ("RAID 5는 최소 3개의 디스크가 필요합니다. (현재: " ++ str num_devices ++ "개)")
  else if (level =? 10) && ((num_devices <? 4) || negb (num_devices mod 2 =? 0)) then
    Some ("RAID 10은 4개 이상의 짝수 디스크가 필요합니다. (현재: " ++ str num_devices ++ "개)")
  else if (level =? 0) && (num_devices <? 2) then
    Some ("RAID 0은 최소 2개의 디스크가 필요합니다. (현재: " ++ str num_devices ++ "개)")
  else None.

Definition validate_config : M unit :=
  print "[*] 설정 값 검증 시작...";;
  c <- ask cfg;;
  if negb (level_allowed (RAID_LEVEL c)) then
    print ("[!] 오류: 허용되지 않는 RAID 레벨(" ++ str (RAID_LEVEL c) ++ ")입니다. ["
           ++ join ", " (map str ALLOWED_RAID_LEVELS) ++ "] 중에서 선택하세요.");;
    sys_exit 1
  else
    let num_devices := Z.of_nat (List.length (RAID_DEVICES c)) in
    match cardinality_error (RAID_LEVEL c) num_devices with
    | Some error_msg => print ("[!] 오류: " ++ error_msg);; sys_exit 1
    | None => print "[*] 설정 값 검증 완료. 유효한 설정입니다."
    end.

(** The devices of the list that [os.path.exists] does not find. *)
Fixpoint missing_of (devices : list string) : M (list string) :=
  match devices with
  | [] => ret []
  | device :: rest =>
      present <- os_path_exists device;;
      others <- missing_of rest;;
      ret (if present then others else device :: others)
  end.

Definition validate_devices : M unit :=
  print "[*] 디스크 장치 존재 여부 확인...";;
  c <- ask cfg;;
  missing_devices <- missing_of (RAID_DEVICES c);;
  match missing_devices with
  | [] => print "[*] 모든 디스크 장치가 존재합니다."
  | _ =>
      print ("[!] 오류: 다음 디스크를 찾을 수 없습니다: " ++ join ", " missing_devices);;
      print "[*] 사용 가능한 블록 디바이스 목록:";;
      r <- subprocess_run ["lsblk"; "-d"; "-o"; "NAME,SIZE,TYPE"] None;;
      match r with
      | Completed p =>
          if returncode p =? 0 then print (stdout p)
          else print "블록 디바이스 목록을 가져올 수 없습니다."
      | _ => print "블록 디바이스 목록을 가져올 수 없습니다."
      end;;
      sys_exit 1
  end.

Definition check_root : M unit :=
  uid <- ask euid;;
  if negb (uid =? 0) then
    print "[!] 이 스크립트는 root 권한(sudo)으로 실행해야 합니다.";;
    sys_exit 1
  else ret tt.

(** *** Command runners *)

(** [run(cmd, timeout)]: [subprocess.run] with [check=True]; the two
    handlers print and call [sys.exit(1)], any other exception of
    [subprocess.run] is not caught. *)
Definition run (cmd : list string) (timeout : Z) : M CompletedProcess :=
  print ("[*] 실행: " ++ join " " cmd);;
  r <- subprocess_run cmd (Some timeout);;
  match r with
  | Completed p =>
      if returncode p =? 0 then ret p
      else
        e <- ask (fun h => called_process_error_str h cmd (returncode p));;
        print ("[!!!] 명령어 실행 중 심각한 오류 발생: " ++ e);;
        when (truthy (stdout p)) (print ("--- STDOUT ---" ++ nl ++ strip (stdout p)));;
        when (truthy (stderr p)) (print ("--- STDERR ---" ++ nl ++ strip (stderr p)));;
        sys_exit 1
  | TimeoutExpired _ _ =>
      print ("[!] 명령어 실행 시간 초과 (" ++ str timeout ++ "초)");;
      sys_exit 1
  | SpawnError => raise OSError
  end.

(** [run_safe(cmd, timeout)]: no [check=True]; every exception gives [None]. *)
Definition run_safe (cmd : list string) (timeout : Z) : M (option CompletedProcess) :=
  r <- subprocess_run cmd (Some timeout);;
  match r with
  | Completed p => ret (Some p)
  | TimeoutExpired _ _ => ret None
  | SpawnError => ret None
  end.

(** *** Confirmation prompt *)

Definition confirm_action (prompt : string) : M unit :=
  print (nl ++ "[!!! 경고 !!!] " ++ prompt);;
  answer <- input "정말로 이 작업을 계속하시겠습니까? (yes/no): ";;
  let choice := lower answer in
  if negb (String.eqb choice "yes") then
    print "[*] 작업을 취소했습니다.";;
    sys_exit 0
  else print "[*] 작업을 계속합니다.".

(** *** Files *)

Definition append_to_file (path text : string) : M unit :=
  r <- write_file path ModeA text;;
  match r with
  | WriteDone => ret tt
  | _ =>
      e <- ask (fun h => write_error_str h path);;
      print ("[!] 파일 쓰기 오류 (" ++ path ++ "): " ++ e)
  end.

(** The value [get_step] computes from the checkpoint file. *)
Definition read_step (f : flag_state) : Z :=
  match f with
  | Absent => 1
  | Unreadable => 1
  | Content text =>
      match int (strip text) with
      | Some n => n
      | None => 1
      end
  end.

Definition get_step : M Z := fun w => (Returned (read_step (flag w)), w, []).

Definition set_step (step : Z) : M unit :=
  r <- write_file FLAG_FILE ModeW (str step);;
  match r with
  | WriteDone => ret tt
  | _ =>
      e <- ask (fun h => write_error_str h FLAG_FILE);;
      print ("[!] 단계 저장 오류: " ++ e)
  end.

(** *** Host queries *)

Definition get_username : M (option string) :=
  ask (fun h => or_else (getenv h "SUDO_USER") (getenv h "USER")).

Definition get_network_address : M string :=
  r <- subprocess_run ["hostname"; "-I"] None;;
  match r with
  | Completed p =>
      if returncode p =? 0 then
        match first_word (strip (stdout p)) with
        | Some local_ip =>
            a <- ask (fun h => ipv4_network_address h (local_ip ++ "/24"));;
            ret (match a with Some s => s | None => "192.168.0.0" end)
        | None => ret "192.168.0.0"
        end
      else ret "192.168.0.0"
  | _ => ret "192.168.0.0"
  end.

Definition get_server_ip : M string :=
  r <- subprocess_run ["hostname"; "-I"] None;;
  match r with
  | Completed p =>
      if returncode p =? 0 then
        ret (match first_word (strip (stdout p)) with
             | Some ip => ip
             | None => "서버IP"
             end)
      else ret "서버IP"
  | _ => ret "서버IP"
  end.

Definition get_uuid (device : string) : M (option string) :=
  r <- subprocess_run ["blkid"; "-s"; "UUID"; "-o"; "value"; device] None;;
  let failed := print ("[!] 경고: " ++ device ++ "의 UUID를 가져올 수 없습니다.");; ret None in
  match r with
  | Completed p => if returncode p =? 0 then ret (Some (strip (stdout p))) else failed
  | _ => failed
  end.

(** *** ClamAV *)

Definition setup_cron_jobs : M unit :=
  username <- get_username;;
  c <- ask cfg;;
  let mount_point := "/home/" ++ fmt username ++ "/" ++ MOUNT_POINT_BASE c in
  let clamscan_cron :=
    "0 2 * * * root clamscan -r " ++ mount_point ++ " > " ++ CLAMAV_LOG_FILE c
    ++ " 2>&1" ++ nl in
  append_to_file "/etc/crontab" clamscan_cron;;
  print "[*] ClamAV 자동 검사 스케줄이 등록되었습니다 (매일 새벽 2시).";;
  print "[*] freshclam 업데이트는 systemd 서비스로 자동 관리됩니다.".

Definition succeeded (r : option CompletedProcess) : bool :=
  match r with
  | Some p => returncode p =? 0
  | None => false
  end.

Definition setup_clamav : M unit :=
  print "[*] ClamAV 설정을 진행합니다...";;
  run_safe ["systemctl"; "stop"; "clamav-freshclam"] 60;;
  run_safe ["mkdir"; "-p"; "/var/log/clamav"] 60;;
  run_safe ["touch"; "/var/log/clamav/freshclam.log"] 60;;
  run_safe ["chown"; "clamav:clamav"; "/var/log/clamav/freshclam.log"] 60;;
  run_safe ["chmod"; "644"; "/var/log/clamav/freshclam.log"] 60;;
  result <- run_safe ["pgrep"; "freshclam"] 60;;
  when (succeeded result)
    (print "[*] 기존 freshclam 프로세스를 종료합니다...";;
     run_safe ["pkill"; "freshclam"] 60;;
     sleep 2);;
  print "[*] ClamAV 바이러스 DB를 초기 업데이트합니다...";;
  result <- run_safe ["freshclam"] 600;;
  (if succeeded result then print "[*] ClamAV 바이러스 DB 업데이트 완료"
   else
     print "[!] 경고: ClamAV 바이러스 DB 초기 업데이트 실패";;
     print "    자동 스케줄링이 설정되어 있으므로 나중에 자동 업데이트됩니다.");;
  run_safe ["systemctl"; "start"; "clamav-freshclam"] 60;;
  run_safe ["systemctl"; "enable"; "clamav-freshclam"] 60;;
  ret tt.

(** *** The stages of [setup] *)

Definition banner : string := repeat_str "=" 50.

Definition stage1 : M unit :=
  print "[*] 1단계: 기본 패키지 설치 및 PCIe HAT 설정";;
  print "[*] PCIe HAT에 연결된 SSD 인식을 위해 config.txt를 수정합니다.";;
  run ["apt-get"; "update"] 300;;
  run ["apt-get"; "install"; "-y"; "vim"] 300;;
  let config_txt := "/boot/firmware/config.txt" in
  present <- os_path_exists config_txt;;
  (if present then
     print ("[*] " ++ config_txt ++ "에 PCIe 설정을 추가합니다.");;
     append_to_file config_txt
       (nl ++ "# PCIe HAT SSD 인식을 위한 설정" ++ nl ++ "dtparam=pciex1" ++ nl
        ++ "dtparam=pciex1_gen=3" ++ nl)
   else
     print ("[!] 경고: " ++ config_txt
            ++ " 파일을 찾을 수 없습니다. 수동으로 설정이 필요할 수 있습니다."));;
  set_step 2;;
  print (nl ++ banner);;
  print "[중요] PCIe HAT SSD 인식을 위해 재부팅이 필요합니다!";;
  print "재부팅 후 다시 이 스크립트를 실행해주세요.";;
  print banner;;
  run ["reboot"] 300;;
  ret tt.

Definition stage2 : M unit :=
  print "[*] 2단계: 나머지 패키지 설치 및 디스크 확인";;
  print "[*] PCIe HAT SSD가 인식되었는지 확인합니다.";;
  validate_devices;;
  run ["apt-get"; "install"; "-y"; "mdadm"; "smartmontools"; "samba"; "ufw"; "clamav"] 300;;
  set_step 3;;
  print "[*] 2단계 완료 → 다음 단계 진행".

Definition stage3 : M unit :=
  c <- ask cfg;;
  print "[*] 3단계: 디스크 초기화 시작";;
  confirm_action ("다음 디스크들의 모든 데이터를 영구적으로 삭제합니다: "
                  ++ join ", " (RAID_DEVICES c));;
  for_each (RAID_DEVICES c)
    (fun device =>
       print ("[*] " ++ device ++ " 초기화 중...");;
       run ["wipefs"; "--all"; device] 300;;
       ret tt);;
  set_step 4.

Definition stage4 : M unit :=
  c <- ask cfg;;
  let count := str (Z.of_nat (List.length (RAID_DEVICES c))) in
  print ("[*] 4단계: RAID " ++ str (RAID_LEVEL c) ++ " 생성 시작");;
  confirm_action (RAID_DEVICE_NAME c ++ "에 " ++ count ++ "개의 디스크로 RAID "
                  ++ str (RAID_LEVEL c) ++ "을 생성합니다.");;
  let cmd := List.app ["mdadm"; "--create"; "--verbose"; RAID_DEVICE_NAME c;
                       "--level=" ++ str (RAID_LEVEL c); "--raid-devices=" ++ count]
                      (RAID_DEVICES c) in
  run cmd 300;;
  print "[*] RAID 동기화가 진행 중입니다. 잠시 기다려주세요...";;
  sleep 5;;
  set_step 5.

Definition stage5 (username : option string) (mount_point : string) : M unit :=
  c <- ask cfg;;
  print "[*] 5단계: 파일 시스템 생성 및 영속성 설정";;
  run ["mkfs." ++ FILESYSTEM_TYPE c; RAID_DEVICE_NAME c] 300;;
  run ["mkdir"; "-p"; mount_point] 300;;
  run ["mount"; RAID_DEVICE_NAME c; mount_point] 300;;
  run ["chown"; fmt username ++ ":" ++ fmt username; mount_point] 300;;
  print "[*] mdadm 설정을 저장하여 재부팅 시에도 RAID를 유지합니다.";;
  mdadm_detail <- run ["mdadm"; "--detail"; "--scan"] 300;;
  append_to_file "/etc/mdadm/mdadm.conf" (stdout mdadm_detail);;
  run ["update-initramfs"; "-u"] 300;;
  print "[*] /etc/fstab에 UUID 기반 자동 마운트를 등록합니다.";;
  device_uuid <- get_uuid (RAID_DEVICE_NAME c);;
  match device_uuid with
  | Some (String a u) =>
      append_to_file "/etc/fstab"
        (nl ++ "UUID=" ++ String a u ++ " " ++ mount_point ++ " " ++ FILESYSTEM_TYPE c
         ++ " defaults,nofail 0 2" ++ nl)
  | _ =>
      print "[!] 경고: UUID를 가져올 수 없어 장치 이름으로 fstab에 등록합니다.";;
      append_to_file "/etc/fstab"
        (nl ++ RAID_DEVICE_NAME c ++ " " ++ mount_point ++ " " ++ FILESYSTEM_TYPE c
         ++ " defaults,nofail 0 2" ++ nl)
  end;;
  set_step 6.

Definition samba_block (c : config) (username : option string)
    (network mount_point : string) : string :=
  nl ++ "[" ++ SAMBA_SHARE_NAME c ++ "]" ++ nl
  ++ "   path = " ++ mount_point ++ nl
  ++ "   browseable = yes" ++ nl
  ++ "   writeable = yes" ++ nl
  ++ "   guest ok = yes" ++ nl
  ++ "   read only = no" ++ nl
  ++ "   create mask = 0775" ++ nl
  ++ "   directory mask = 0775" ++ nl
  ++ "   hosts allow = 127.0.0.1 " ++ network ++ "/24" ++ nl
  ++ "   force user = " ++ fmt username ++ nl
  ++ "   force group = " ++ fmt username ++ nl.

Definition stage6 (username : option string) (network mount_point : string) : M unit :=
  c <- ask cfg;;
  print "[*] 6단계: Samba 설정";;
  append_to_file "/etc/samba/smb.conf" (samba_block c username network mount_point);;
  run ["systemctl"; "restart"; "smbd"] 300;;
  run ["systemctl"; "enable"; "smbd"] 300;;
  set_step 7.

Definition stage7 : M unit :=
  c <- ask cfg;;
  print "[*] 7단계: 방화벽 및 보안 설정";;
  run ["ufw"; "allow"; "ssh"] 300;;
  run ["ufw"; "allow"; "samba"] 300;;
  run ["ufw"; "allow"; str (FLASK_PORT c) ++ "/tcp"] 300;;
  run ["ufw"; "--force"; "enable"] 300;;
  setup_cron_jobs;;
  setup_clamav;;
  set_step 8.

(** The [if]/[elif] chain of [setup] on the step read from the checkpoint;
    there is no final [else]. *)
Definition stages (step : Z) (username : option string)
    (network mount_point : string) : M unit :=
  if step =? 1 then stage1
  else if step =? 2 then stage2
  else if step =? 3 then stage3
  else if step =? 4 then stage4
  else if step =? 5 then stage5 username mount_point
  else if step =? 6 then stage6 username network mount_point
  else if step =? 7 then stage7
  else if step >=? 8 then print "[*] 모든 설치 및 설정 단계가 완료되었습니다."
  else ret tt.

Definition setup : M unit :=
  step <- get_step;;
  username <- get_username;;
  network <- get_network_address;;
  c <- ask cfg;;
  let mount_point := "/home/" ++ fmt username ++ "/" ++ MOUNT_POINT_BASE c in
  stages step username network mount_point.

(** *** The dashboard service and the main program *)

Definition service_content (service_dir service_script : string) : string :=
  "[Unit]" ++ nl
  ++ "Description=NAS Dashboard Service" ++ nl
  ++ "After=network.target" ++ nl
  ++ nl
  ++ "[Service]" ++ nl
  ++ "Type=simple" ++ nl
  ++ "User=nobody" ++ nl
  ++ "Group=nogroup" ++ nl
  ++ "WorkingDirectory=" ++ service_dir ++ nl
  ++ "ExecStart=/usr/bin/python3 " ++ service_script ++ " --dashboard-only" ++ nl
  ++ "Restart=always" ++ nl
  ++ "RestartSec=10" ++ nl
  ++ "StandardOutput=journal" ++ nl
  ++ "StandardError=journal" ++ nl
  ++ nl
  ++ "[Install]" ++ nl
  ++ "WantedBy=multi-user.target" ++ nl.

Definition create_systemd_service : M unit :=
  script <- ask script_path;;
  username <- get_username;;
  let service_dir := "/opt/nas-dashboard" in
  let service_script := service_dir ++ "/nas-dashboard.py" in
  run ["mkdir"; "-p"; service_dir] 300;;
  run ["cp"; script; service_script] 300;;
  run ["chmod"; "755"; service_script] 300;;
  run ["chown"; "root:root"; service_script] 300;;
  let log_file := "/var/log/nas-dashboard.log" in
  run_safe ["touch"; log_file] 60;;
  run_safe ["chmod"; "666"; log_file] 60;;
  let service_file := "/etc/systemd/system/nas-dashboard.service" in
  r <- write_file service_file ModeW (service_content service_dir service_script);;
  match r with
  | WriteDone =>
      run ["systemctl"; "daemon-reload"] 300;;
      run ["systemctl"; "enable"; "nas-dashboard.service"] 300;;
      print ("[*] systemd 서비스가 생성되었습니다: " ++ service_file);;
      print ("[*] 스크립트가 " ++ service_script ++ "로 복사되었습니다.");;
      print ("[*] 로그 파일 " ++ log_file ++ "이 생성되었습니다.")
  | _ => raise OSError
  end.

Definition rule : string := repeat_str "=" 70.

Definition show_management_commands : M unit :=
  server_ip <- get_server_ip;;
  c <- ask cfg;;
  print (nl ++ rule);;
  print "🎉 모든 설정이 완료되었습니다!";;
  print ("📱 Flask 대시보드: http://" ++ server_ip ++ ":" ++ str (FLASK_PORT c));;
  print ("📁 Samba 공유: \\" ++ server_ip ++ "\" ++ SAMBA_SHARE_NAME c);;
  print "🔒 보안: UFW 방화벽 활성화, ClamAV 자동 검사 설정됨";;
  print rule;;
  print (nl ++ "📋 관리 명령어:");;
  print "  🚀 대시보드 시작:      sudo systemctl start nas-dashboard";;
  print "  🛑 대시보드 중지:      sudo systemctl stop nas-dashboard";;
  print "  🔄 대시보드 재시작:    sudo systemctl restart nas-dashboard";;
  print "  📊 대시보드 상태:      sudo systemctl status nas-dashboard";;
  print "  📜 대시보드 로그:      sudo journalctl -u nas-dashboard -f";;
  print "  📄 상세 로그 파일:     tail -f /var/log/nas-dashboard.log";;
  print (nl ++ "  🔧 RAID 상태 확인:     cat /proc/mdstat");;
  print "  💾 디스크 사용량:      df -h";;
  print "  🛡️ 방화벽 상태:       sudo ufw status";;
  print rule.

(** The main program without [--dashboard-only] (the Flask dashboard that
    the flag starts instead is not part of this development). *)
Definition main : M unit :=
  check_root;;
  step <- get_step;;
  when (step =? 1) validate_config;;
  setup;;
  step <- get_step;;
  if step >=? 8 then
    create_systemd_service;;
    show_management_commands;;
    print (nl ++ "[*] 대시보드 서비스를 시작합니다...");;
    run ["systemctl"; "start"; "nas-dashboard"] 300;;
    print (nl ++ "✅ 설치 완료! 대시보드가 백그라운드에서 실행 중입니다.");;
    print "   터미널을 닫아도 서비스는 계속 실행됩니다.";;
    print "   서버 재부팅 시에도 자동으로 시작됩니다."
  else ret tt.

(** *** The scan log shown by the dashboard

    The reader below does nothing but read one file; the state of that
    file is its argument. *)


End Nas.

(* ================================================================== *)
(** ** Properties of computations and sample machines *)
(* ================================================================== *)

Import Py Nas.

(** The process did not come back to its caller: it exited or raised. *)
Definition aborted {A} (r : outcome A) : Prop :=
  match r with
  | Returned _ => False
  | _ => True
  end.

(** The read-only query [hostname -I] that [setup] makes before it looks at
    the step; every other subprocess launch and every file write counts as
    a mutating event. *)
Definition network_query : list string := ["hostname"; "-I"].

Definition mutating (e : event) : bool :=
  match e with
  | EvExec argv _ => if list_eq_dec string_dec argv network_query then false else true
  | EvWrite _ _ _ _ => true
  | _ => false
  end.

Definition writes_flag (e : event) : bool :=
  match e with
  | EvWrite path _ _ _ => String.eqb path FLAG_FILE
  | _ => false
  end.

(** An answer that [confirm_action] takes as a yes. *)
Definition affirmative (answer : string) : bool := String.eqb (lower answer) "yes".

(** [text] shows up in something the run printed. *)
Definition printed (text : string) (evs : list event) : Prop :=
  exists line, In (EvPrint line) evs /\ contains text line = true.

Definition reboot_event : event := EvExec ["reboot"] (Some 300).

(** A computation that leaves the host description and the checkpoint file
    alone, whatever its outcome. *)
Definition untouched {A} (m : M A) : Prop :=
  forall w,
    machine (world_of (m w)) = machine w /\
    flag (world_of (m w)) = flag w /\
    Forall (fun e => writes_flag e = false) (events_of (m w)).

(** A computation that always comes back to its caller. *)
Definition total {A} (m : M A) : Prop :=
  forall w, exists a, result_of (m w) = Returned a.

(** A computation that, when it aborts, has not changed the checkpoint. *)
Definition all_or_nothing {A} (m : M A) : Prop :=
  forall w, aborted (result_of (m w)) -> flag (world_of (m w)) = flag w.

(** The same, for the runs in which [reboot] was not launched. *)
Definition all_or_nothing_before_reboot {A} (m : M A) : Prop :=
  forall w, aborted (result_of (m w)) ->
            ~ In reboot_event (events_of (m w)) ->
            flag (world_of (m w)) = flag w.

(** A computation that, when it returns on a machine where the checkpoint
    file can be written, leaves [str n] in it. *)
Definition commits {A} (n : Z) (m : M A) : Prop :=
  forall w, file_write (machine w) FLAG_FILE = WriteDone ->
            (exists a, result_of (m w) = Returned a) ->
            flag (world_of (m w)) = Content (str n).

(** A computation that emits [e] in every run. *)
Definition always_emits {A} (e : event) (m : M A) : Prop :=
  forall w, In e (events_of (m w)).

(** The world after one subprocess launch; the stage of [setup] starts in
    [launched w], the network query being the launch. *)
Definition launched (w : world) : world :=
  mkWorld (machine w) (flag w) (S (clock w)) (stdin w).

Definition username_of (w : world) : option string :=
  or_else (getenv (machine w) "SUDO_USER") (getenv (machine w) "USER").

Definition mount_point_of (w : world) : string :=
  "/home/" ++ fmt (username_of w) ++ "/" ++ MOUNT_POINT_BASE (cfg (machine w)).

(** The device-count rule of each RAID level. *)
Definition cardinality_rule (level count : Z) : Prop :=
  (level = 1 /\ count = 2) \/
  (level = 5 /\ 3 <= count) \/
  (level = 10 /\ 4 <= count /\ Z.even count = true) \/
  (level = 0 /\ 2 <= count).

(** What a failed command is for a caller of [run_safe]. *)
Definition command_failed (o : proc_outcome) : Prop :=
  match o with
  | Completed p => returncode p <> 0
  | _ => True
  end.

(** Every mutating event of the run comes after an answer that
    [confirm_action] takes as a yes. *)
Definition gated (evs : list event) : Prop :=
  forall pre e post,
    evs = (pre ++ e :: post)%list -> mutating e = true ->
    exists prompt answer, In (EvInput prompt (Some answer)) pre /\ affirmative answer = true.

Definition question : string := "정말로 이 작업을 계속하시겠습니까? (yes/no): ".

(** What [main] does after [setup] when the step read is 8 or more. *)
Definition start_dashboard : M unit :=
  create_systemd_service;;
  show_management_commands;;
  print (nl ++ "[*] 대시보드 서비스를 시작합니다...");;
  run ["systemctl"; "start"; "nas-dashboard"] 300;;
  print (nl ++ "✅ 설치 완료! 대시보드가 백그라운드에서 실행 중입니다.");;
  print "   터미널을 닫아도 서비스는 계속 실행됩니다.";;
  print "   서버 재부팅 시에도 자동으로 시작됩니다.".


(** *** Sample machines *)

Definition done : proc_outcome := Completed (mkCompleted 0 EmptyString EmptyString).

(** A Raspberry Pi on which every program succeeds, every path exists and
    every file can be written; the script runs as root through [sudo]. *)
Definition pi_host (respond : nat -> list string -> option Z -> proc_outcome)
    (writes : string -> write_outcome) : host :=
  {| cfg := shipped_config;
     euid := 0;
     getenv := fun name => if String.eqb name "SUDO_USER" then Some "pi" else None;
     path_exists := fun _ => true;
     spawn := respond;
     file_write := writes;
     script_path := "/home/pi/nas.py";
     ipv4_network_address := fun _ => None;
     called_process_error_str := fun cmd rc =>
       "Command '" ++ join " " cmd ++ "' returned non-zero exit status " ++ str rc ++ ".";
     write_error_str := fun path => "[Errno 30] Read-only file system: '" ++ path ++ "'" |}.

Definition all_succeed : nat -> list string -> option Z -> proc_outcome :=
  fun _ _ _ => done.

Definition all_written : string -> write_outcome := fun _ => WriteDone.

Definition pi (f : flag_state) (answers : list string) : world :=
  mkWorld (pi_host all_succeed all_written) f 0 answers.

(** The same machine, on which [reboot] exits with status 1. *)
Definition reboot_refused : nat -> list string -> option Z -> proc_outcome :=
  fun _ argv _ =>
    match argv with
    | ["reboot"] => Completed (mkCompleted 1 EmptyString "Failed to talk to init daemon.")
    | _ => done
    end.

Definition pi_reboot_refused : world :=
  mkWorld (pi_host reboot_refused all_written) Absent 0 [].

(** The same machine, on which the checkpoint file cannot be opened for
    writing, checkpoint at stage 2. *)
Definition flag_read_only : string -> write_outcome :=
  fun path => if String.eqb path FLAG_FILE then OpenRaises else WriteDone.

Definition pi_flag_read_only : world :=
  mkWorld (pi_host all_succeed flag_read_only) (Content "2") 0 [].

(** The same machine, on which every program exits with status 1 after
    writing to both streams. *)
Definition all_fail : nat -> list string -> option Z -> proc_outcome :=
  fun _ _ _ => Completed (mkCompleted 1 "some output" "some error").

Definition pi_all_fail : world := mkWorld (pi_host all_fail all_written) Absent 0 [].

(** The same machine, on which every program is killed by its timeout after
    it wrote to both streams. *)
Definition all_time_out : nat -> list string -> option Z -> proc_outcome :=
  fun _ _ _ => TimeoutExpired "copied 1 of 3" "disk is slow".

Definition pi_all_time_out : world := mkWorld (pi_host all_time_out all_written) Absent 0 [].

(** *** The sentences of the specification that the code does not satisfy,
    as they are written *)

(** "[confirm_action] with any input other than the exact affirmative token
    terminates the process with exit code 0". *)
Definition exact_token_statement : Prop :=
  forall prompt w answer rest,
    stdin w = answer :: rest -> answer <> "yes" ->
    result_of (confirm_action prompt w) = Exited 0.

(** "[run_safe] never raises, and on any failure of the command (non-zero
    exit, timeout, or spawn failure) it returns an empty/absent result". *)
Definition run_safe_statement : Prop :=
  forall cmd timeout w,
    (exists r, result_of (run_safe cmd timeout w) = Returned r) /\
    (command_failed (spawn (machine w) (clock w) cmd (Some timeout)) ->
     result_of (run_safe cmd timeout w) = Returned None).

(** "[run] on a command that exits non-zero or exceeds its timeout
    terminates the process with exit code 1 after printing the captured
    stdout/stderr; it returns the result only when the command exits zero". *)
Definition run_statement : Prop :=
  forall cmd timeout w,
    match spawn (machine w) (clock w) cmd (Some timeout) with
    | Completed p =>
        if returncode p =? 0 then result_of (run cmd timeout w) = Returned p
        else result_of (run cmd timeout w) = Exited 1 /\
             printed (strip (stdout p)) (events_of (run cmd timeout w)) /\
             printed (strip (stderr p)) (events_of (run cmd timeout w))
    | TimeoutExpired out err =>
        result_of (run cmd timeout w) = Exited 1 /\
        printed (strip out) (events_of (run cmd timeout w)) /\
        printed (strip err) (events_of (run cmd timeout w))
    | SpawnError => True
    end.


(* ================================================================== *)
(** ** What a run launched *)
(* ================================================================== *)

(** [os.path.exists(path)] in a world. *)
Definition present (w : world) (path : string) : bool :=
  if String.eqb path FLAG_FILE
  then match flag w with Absent => false | _ => true end
  else path_exists (machine w) path.

(** The devices of the configuration that do not exist. *)
Definition missing_devices_of (w : world) : list string :=
  filter (fun device => negb (present w device)) (RAID_DEVICES (cfg (machine w))).

(** The command lines launched, in order. *)
Fixpoint launches (evs : list event) : list (list string) :=
  match evs with
  | [] => []
  | EvExec argv _ :: rest => argv :: launches rest
  | _ :: rest => launches rest
  end.

(** A host on which every program that is launched exits with status 0. *)
Definition obliging (h : host) : Prop :=
  forall n argv t, exists p, spawn h n argv t = Completed p /\ returncode p = 0.

(** A computation that returns on every obliging host, and leaves the
    host description as it is. *)
Definition cooperative {A} (m : M A) : Prop :=
  forall w, obliging (machine w) ->
            (exists a, result_of (m w) = Returned a) /\
            machine (world_of (m w)) = machine w.

(** A computation after which the checkpoint file is what it was, or holds
    [str n], or is empty. *)
Definition advances_to {A} (n : Z) (m : M A) : Prop :=
  forall w,
    flag (world_of (m w)) = flag w \/
    flag (world_of (m w)) = Content (str n) \/
    flag (world_of (m w)) = Content EmptyString.

(** The completed process of a launch, if it ran to its end. *)
Definition completed (o : proc_outcome) : option CompletedProcess :=
  match o with
  | Completed p => Some p
  | _ => None
  end.

(** A host ready for the installation: the script runs as root, every
    program exits with status 0, the checkpoint file can be written, the
    configuration satisfies the rule of its RAID level and its devices
    exist. *)
Definition ready (h : host) : Prop :=
  obliging h /\
  euid h = 0 /\
  file_write h FLAG_FILE = WriteDone /\
  cardinality_rule (RAID_LEVEL (cfg h)) (Z.of_nat (List.length (RAID_DEVICES (cfg h)))) /\
  forall device, In device (RAID_DEVICES (cfg h)) ->
                 String.eqb device FLAG_FILE = false /\ path_exists h device = true.

(** The next invocation of the main program on the same host: the
    checkpoint file is what the previous invocation left, and the operator
    is there to answer [yes]. *)
Definition reinvoke (w : world) : world :=
  mkWorld (machine w) (flag (world_of (main w))) 0 ["yes"].

Fixpoint invocations (n : nat) (w : world) : world :=
  match n with
  | O => w
  | S k => invocations k (reinvoke w)
  end.

Definition lsblk : list string := ["lsblk"; "-d"; "-o"; "NAME,SIZE,TYPE"].


(* ================================================================== *)
(** ** Decimal text of an integer and back *)
(* ================================================================== *)

Section Decimal_text.

Lemma lstrip_no_space s : no_space s = true -> lstrip s = s.
Proof.
  destruct s as [|c r]; simpl; [reflexivity|].
  intros H. apply andb_prop in H. destruct H as [Hc _].
  apply negb_true_iff in Hc. now rewrite Hc.
Qed.

Lemma rstrip_no_space s : no_space s = true -> rstrip s = s.
Proof.
  induction s as [|c r IH]; simpl; [reflexivity|].
  intros H. apply andb_prop in H. destruct H as [Hc Hr].
  apply negb_true_iff in Hc. rewrite (IH Hr), Hc.
  now destruct r.
Qed.

Lemma strip_no_space s : no_space s = true -> strip s = s.
Proof.
  intros H. unfold strip. rewrite (lstrip_no_space s H). now apply rstrip_no_space.
Qed.

Lemma no_space_digits d : no_space (NilEmpty.string_of_uint d) = true.
Proof. induction d; simpl; auto. Qed.

Lemma no_space_uint d : no_space (NilZero.string_of_uint d) = true.
Proof. destruct d; try reflexivity; apply no_space_digits. Qed.

Lemma no_space_str n : no_space (str n) = true.
Proof.
  unfold str. destruct (Z.to_int n); simpl; auto using no_space_uint.
Qed.

Lemma digit_groups_digits d b :
  d <> Nil \/ b = true ->
  digit_groups b (NilEmpty.string_of_uint d) = Some (NilEmpty.string_of_uint d).
Proof.
  revert b. induction d; intros b H; simpl;
    try (rewrite IHd by (right; reflexivity); reflexivity).
  destruct H as [H|H]; [congruence | now subst].
Qed.

Lemma nat_of_str_uint d :
  d <> Nil -> nat_of_str (NilZero.string_of_uint d) = Some (Z.of_uint d).
Proof.
  intros H. unfold nat_of_str.
  assert (E : NilZero.string_of_uint d = NilEmpty.string_of_uint d)
    by (destruct d; [congruence | reflexivity ..]).
  rewrite E, digit_groups_digits by (left; exact H).
  rewrite <- E. now rewrite NilZero.usu.
Qed.

Lemma of_uint_to_uint p : Z.of_uint (Pos.to_uint p) = Z.pos p.
Proof. exact (DecimalZ.of_to (Z.pos p)). Qed.

(** [int(str(n)) == n]. *)
Lemma int_str n : int (str n) = Some n.
Proof.
  unfold int. rewrite (strip_no_space _ (no_space_str n)).
  unfold str. destruct n as [|p|p]; simpl.
  - reflexivity.
  - pose proof (of_uint_to_uint p) as Hv.
    pose proof (DecimalPos.Unsigned.to_uint_nonnil p) as Hn.
    destruct (Pos.to_uint p) eqn:E; [congruence | ..];
      match goal with
      | |- context [NilZero.string_of_uint ?u] =>
          transitivity (nat_of_str (NilZero.string_of_uint u));
          [reflexivity | rewrite (nat_of_str_uint u) by discriminate; now rewrite Hv]
      end.
  - rewrite nat_of_str_uint by apply DecimalPos.Unsigned.to_uint_nonnil.
    simpl. now rewrite of_uint_to_uint.
Qed.

(** The checkpoint that [set_step n] writes reads back as [n]. *)
Lemma read_step_str n : read_step (Content (str n)) = n.
Proof.
  unfold read_step.
  rewrite (strip_no_space _ (no_space_str n)), int_str. reflexivity.
Qed.

End Decimal_text.

(* ================================================================== *)
(** ** Sequencing *)
(* ================================================================== *)

Ltac unpack := unfold result_of, world_of, events_of in *; simpl in *.

Section Sequencing.

Context {A B : Type}.
Variable m : M A.
Variable k : A -> M B.

Lemma bind_returned w a w1 e1 :
  m w = (Returned a, w1, e1) ->
  bind m k w = (result_of (k a w1), world_of (k a w1), (e1 ++ events_of (k a w1))%list).
Proof.
  intros E. unfold bind. rewrite E. now destruct (k a w1) as [[r w2] e2].
Qed.

Lemma bind_pure w a : m w = (Returned a, w, []) -> bind m k w = k a w.
Proof.
  intros E. rewrite (bind_returned w a w [] E). now destruct (k a w) as [[r w2] e2].
Qed.

Lemma bind_exited w c w1 e1 : m w = (Exited c, w1, e1) -> bind m k w = (Exited c, w1, e1).
Proof. intros E. unfold bind. now rewrite E. Qed.

Lemma bind_raised w x w1 e1 : m w = (Raised x, w1, e1) -> bind m k w = (Raised x, w1, e1).
Proof. intros E. unfold bind. now rewrite E. Qed.

Lemma untouched_bind : untouched m -> (forall a, untouched (k a)) -> untouched (bind m k).
Proof.
  intros Hm Hk w. specialize (Hm w). unfold bind.
  destruct (m w) as [[[a|c|x] w1] e1]; try exact Hm.
  specialize (Hk a w1). destruct (k a w1) as [[r w2] e2]. unpack.
  destruct Hm as (Hm1 & Hm2 & Hm3), Hk as (Hk1 & Hk2 & Hk3).
  repeat split; try congruence. apply Forall_app. now split.
Qed.

Lemma total_bind : total m -> (forall a, total (k a)) -> total (bind m k).
Proof.
  intros Hm Hk w. destruct (Hm w) as [a Ha]. unfold bind.
  destruct (m w) as [[r w1] e1]. unpack. subst r.
  destruct (Hk a w1) as [b Hb]. destruct (k a w1) as [[r2 w2] e2]. unpack.
  now exists b.
Qed.

Lemma all_or_nothing_bind :
  untouched m -> (forall a, all_or_nothing (k a)) -> all_or_nothing (bind m k).
Proof.
  intros Hm Hk w. destruct (Hm w) as (_ & Hf & _). unfold bind.
  destruct (m w) as [[[a|c|x] w1] e1]; unpack; intros; try assumption.
  specialize (Hk a w1). destruct (k a w1) as [[r2 w2] e2]. unpack.
  rewrite <- Hf. now apply Hk.
Qed.

Lemma before_reboot_bind :
  untouched m -> (forall a, all_or_nothing_before_reboot (k a)) ->
  all_or_nothing_before_reboot (bind m k).
Proof.
  intros Hm Hk w. destruct (Hm w) as (_ & Hf & _). unfold bind.
  destruct (m w) as [[[a|c|x] w1] e1]; unpack; intros; try assumption.
  specialize (Hk a w1). destruct (k a w1) as [[r2 w2] e2]. unpack.
  rewrite <- Hf. apply Hk; [assumption|].
  intros Hin. apply H0. apply in_or_app. now right.
Qed.

Lemma commits_bind n :
  untouched m -> (forall a, commits n (k a)) -> commits n (bind m k).
Proof.
  intros Hm Hk w Hw [b Hb]. destruct (Hm w) as (Hh & _ & _). unfold bind in *.
  destruct (m w) as [[[a|c|x] w1] e1]; unpack; try discriminate.
  specialize (Hk a w1). destruct (k a w1) as [[r2 w2] e2]. unpack.
  apply Hk; [now rewrite Hh | now exists b].
Qed.

Lemma emits_bind_l e : always_emits e m -> always_emits e (bind m k).
Proof.
  intros Hm w. specialize (Hm w). unfold bind.
  destruct (m w) as [[[a|c|x] w1] e1]; unpack; try assumption.
  destruct (k a w1) as [[r2 w2] e2]. unpack. apply in_or_app. now left.
Qed.

Lemma emits_bind_r e : total m -> (forall a, always_emits e (k a)) -> always_emits e (bind m k).
Proof.
  intros Hm Hk w. destruct (Hm w) as [a Ha]. unfold bind.
  destruct (m w) as [[r w1] e1]. unpack. subst r.
  specialize (Hk a w1). destruct (k a w1) as [[r2 w2] e2]. unpack.
  apply in_or_app. now right.
Qed.

End Sequencing.

Lemma all_or_nothing_total {A} (m : M A) : total m -> all_or_nothing m.
Proof. intros Hm w Ha. destruct (Hm w) as [a E]. rewrite E in Ha. destruct Ha. Qed.

Lemma before_reboot_weaken {A} (m : M A) : all_or_nothing m -> all_or_nothing_before_reboot m.
Proof. intros Hm w Ha _. now apply Hm. Qed.

Lemma before_reboot_emits {A} (m : M A) :
  always_emits reboot_event m -> all_or_nothing_before_reboot m.
Proof. intros Hm w _ Hn. destruct (Hn (Hm w)). Qed.

(** *** The primitive effects leave the checkpoint alone *)

Create HintDb untouched.
Create HintDb total.

Ltac trivially_untouched :=
  let w := fresh "w" in
  intros w; repeat split; repeat constructor.

Lemma untouched_ret {A} (a : A) : untouched (ret a).
Proof. trivially_untouched. Qed.

Lemma untouched_sys_exit {A} c : untouched (@sys_exit A c).
Proof. trivially_untouched. Qed.

Lemma untouched_raise {A} x : untouched (@raise A x).
Proof. trivially_untouched. Qed.

Lemma untouched_ask {A} (f : host -> A) : untouched (ask f).
Proof. trivially_untouched. Qed.

Lemma untouched_print s : untouched (print s).
Proof. trivially_untouched. Qed.

Lemma untouched_sleep n : untouched (sleep n).
Proof. trivially_untouched. Qed.

Lemma untouched_subprocess_run argv t : untouched (subprocess_run argv t).
Proof. trivially_untouched. Qed.

Lemma untouched_input p : untouched (input p).
Proof. intros w. unfold input. destruct (stdin w); repeat split; repeat constructor. Qed.

Lemma untouched_os_path_exists p : untouched (os_path_exists p).
Proof. trivially_untouched. Qed.

Lemma untouched_write_file path mode text :
  String.eqb path FLAG_FILE = false -> untouched (write_file path mode text).
Proof.
  intros H w. unfold write_file, world_of, events_of. simpl. rewrite H.
  repeat split. constructor; [simpl; exact H | constructor].
Qed.

Lemma untouched_get_step : untouched get_step.
Proof. trivially_untouched. Qed.

Lemma untouched_when b m : untouched m -> untouched (when b m).
Proof. destruct b; simpl; auto using untouched_ret. Qed.

Lemma untouched_for_each {A} (xs : list A) body :
  (forall x, untouched (body x)) -> untouched (for_each xs body).
Proof.
  intros H. induction xs as [|x xs IH]; simpl.
  - apply untouched_ret.
  - apply untouched_bind; auto.
Qed.

Lemma untouched_append_to_file path text :
  String.eqb path FLAG_FILE = false -> untouched (append_to_file path text).
Proof.
  intros H. unfold append_to_file. apply untouched_bind.
  - now apply untouched_write_file.
  - intros []; auto using untouched_ret;
      (apply untouched_bind; [apply untouched_ask | intros; apply untouched_print]).
Qed.

#[export] Hint Resolve untouched_ret untouched_sys_exit untouched_raise untouched_ask
  untouched_print untouched_sleep untouched_subprocess_run untouched_input
  untouched_os_path_exists untouched_get_step : untouched.

(** Walks through a computation built from the pieces above. *)
Ltac untouch :=
  repeat (intros; cbv zeta;
    lazymatch goal with
    | |- untouched (bind _ _) => apply untouched_bind
    | |- untouched (when _ _) => apply untouched_when
    | |- untouched (for_each _ _) => apply untouched_for_each
    | |- untouched (write_file _ _ _) => apply untouched_write_file; reflexivity
    | |- untouched (append_to_file _ _) => apply untouched_append_to_file; reflexivity
    | |- untouched (match ?x with _ => _ end) => destruct x
    | |- untouched _ => solve [auto with untouched]
    end).

(** *** ... and so does every function of the script but [set_step] *)

Lemma untouched_run cmd t : untouched (run cmd t).
Proof. unfold run. untouch. Qed.

Lemma untouched_run_safe cmd t : untouched (run_safe cmd t).
Proof. unfold run_safe. untouch. Qed.

Lemma untouched_confirm_action p : untouched (confirm_action p).
Proof. unfold confirm_action. untouch. Qed.

Lemma untouched_get_username : untouched get_username.
Proof. unfold get_username. untouch. Qed.

Lemma untouched_get_network_address : untouched get_network_address.
Proof. unfold get_network_address. untouch. Qed.

Lemma untouched_get_server_ip : untouched get_server_ip.
Proof. unfold get_server_ip. untouch. Qed.

Lemma untouched_get_uuid d : untouched (get_uuid d).
Proof. unfold get_uuid. untouch. Qed.

Lemma untouched_missing_of ds : untouched (missing_of ds).
Proof. induction ds; simpl; untouch. Qed.

#[export] Hint Resolve untouched_run untouched_run_safe untouched_confirm_action
  untouched_get_username untouched_get_network_address untouched_get_server_ip
  untouched_get_uuid untouched_missing_of : untouched.

Lemma untouched_validate_devices : untouched validate_devices.
Proof. unfold validate_devices. untouch. Qed.

Lemma untouched_validate_config : untouched validate_config.
Proof. unfold validate_config. untouch. Qed.

Lemma untouched_check_root : untouched check_root.
Proof. unfold check_root. untouch. Qed.

Lemma untouched_setup_cron_jobs : untouched setup_cron_jobs.
Proof. unfold setup_cron_jobs. untouch. Qed.

Lemma untouched_setup_clamav : untouched setup_clamav.
Proof. unfold setup_clamav. untouch. Qed.

Lemma untouched_create_systemd_service : untouched create_systemd_service.
Proof. unfold create_systemd_service. untouch. Qed.

Lemma untouched_show_management_commands : untouched show_management_commands.
Proof. unfold show_management_commands. untouch. Qed.

#[export] Hint Resolve untouched_validate_devices untouched_validate_config
  untouched_check_root untouched_setup_cron_jobs untouched_setup_clamav
  untouched_create_systemd_service untouched_show_management_commands : untouched.

(** *** Functions that always return *)

Lemma total_ret {A} (a : A) : total (ret a).
Proof. intros w. now exists a. Qed.

Lemma total_print s : total (print s).
Proof. intros w. now exists tt. Qed.

Lemma total_ask {A} (f : host -> A) : total (ask f).
Proof. intros w. now exists (f (machine w)). Qed.

Lemma total_set_step n : total (set_step n).
Proof.
  intros w. exists tt. unfold set_step, bind, write_file, ask, print, result_of. simpl.
  now destruct (file_write (machine w) FLAG_FILE).
Qed.

#[export] Hint Resolve total_ret total_print total_ask total_set_step : total.

Ltac totality :=
  repeat (intros;
    lazymatch goal with
    | |- total (bind _ _) => apply total_bind
    | |- total _ => solve [auto with total]
    end).

(** *** The checkpoint write *)

Lemma set_step_done n w :
  file_write (machine w) FLAG_FILE = WriteDone ->
  set_step n w =
    (Returned tt, mkWorld (machine w) (Content (str n)) (clock w) (stdin w),
     [EvWrite FLAG_FILE ModeW (str n) WriteDone]).
Proof.
  intros H. unfold set_step, bind, write_file. simpl. now rewrite H.
Qed.

Lemma commits_set_step n : commits n (set_step n).
Proof. intros w Hw _. now rewrite (set_step_done n w Hw). Qed.

Lemma commits_set_step_then {B} n (k : unit -> M B) :
  (forall u, untouched (k u)) -> commits n (bind (set_step n) k).
Proof.
  intros Hk w Hw _. rewrite (bind_returned _ _ _ _ _ _ (set_step_done n w Hw)).
  unfold world_of at 1. simpl.
  now destruct (Hk tt (mkWorld (machine w) (Content (str n)) (clock w) (stdin w))) as (_ & -> & _).
Qed.

Lemma run_launches cmd t : always_emits (EvExec cmd (Some t)) (run cmd t).
Proof.
  unfold run. apply emits_bind_r; [apply total_print | intros _].
  apply emits_bind_l. intros w. now left.
Qed.

(** Walks to the checkpoint write of a stage: what comes before it leaves
    the checkpoint alone. *)
Ltac to_checkpoint split_bind tail :=
  repeat (intros; cbv zeta;
    lazymatch goal with
    | |- _ (bind (set_step _) _) => tail
    | |- _ (set_step _) => tail
    | |- _ (bind _ _) => split_bind; [solve [untouch] | ]
    | |- _ (match ?x with _ => _ end) => destruct x
    end).

Ltac atomic :=
  to_checkpoint ltac:(apply all_or_nothing_bind) ltac:(apply all_or_nothing_total; totality).

Ltac committing :=
  repeat (intros; cbv zeta;
    lazymatch goal with
    | |- commits _ (bind (set_step _) _) => apply commits_set_step_then; solve [untouch]
    | |- commits _ (set_step _) => apply commits_set_step
    | |- commits _ (bind _ _) => apply commits_bind; [solve [untouch] | ]
    | |- commits _ (match ?x with _ => _ end) => destruct x
    end).

(** *** The stages *)

Lemma stage1_reboots_after_checkpoint :
  always_emits reboot_event
    (set_step 2;;
     print (nl ++ banner);;
     print "[중요] PCIe HAT SSD 인식을 위해 재부팅이 필요합니다!";;
     print "재부팅 후 다시 이 스크립트를 실행해주세요.";;
     print banner;;
     run ["reboot"] 300;;
     ret tt).
Proof.
  apply emits_bind_r; [apply total_set_step | intros _].
  do 4 (apply emits_bind_r; [apply total_print | intros _]).
  apply emits_bind_l. apply run_launches.
Qed.

Lemma stage1_before_reboot : all_or_nothing_before_reboot stage1.
Proof.
  unfold stage1.
  to_checkpoint ltac:(apply before_reboot_bind)
    ltac:(apply before_reboot_emits; apply stage1_reboots_after_checkpoint).
Qed.

Lemma stage2_atomic : all_or_nothing stage2.
Proof. unfold stage2. atomic. Qed.

Lemma stage3_atomic : all_or_nothing stage3.
Proof. unfold stage3. atomic. Qed.

Lemma stage4_atomic : all_or_nothing stage4.
Proof. unfold stage4. atomic. Qed.

Lemma stage5_atomic u mp : all_or_nothing (stage5 u mp).
Proof. unfold stage5. atomic. Qed.

Lemma stage6_atomic u n mp : all_or_nothing (stage6 u n mp).
Proof. unfold stage6. atomic. Qed.

Lemma stage7_atomic : all_or_nothing stage7.
Proof. unfold stage7. atomic. Qed.

Lemma stage1_commits : commits 2 stage1.
Proof. unfold stage1. committing. Qed.

Lemma stage2_commits : commits 3 stage2.
Proof. unfold stage2. committing. Qed.

Lemma stage3_commits : commits 4 stage3.
Proof. unfold stage3. committing. Qed.

Lemma stage4_commits : commits 5 stage4.
Proof. unfold stage4. committing. Qed.

Lemma stage5_commits u mp : commits 6 (stage5 u mp).
Proof. unfold stage5. committing. Qed.

Lemma stage6_commits u n mp : commits 7 (stage6 u n mp).
Proof. unfold stage6. committing. Qed.

Lemma stage7_commits : commits 8 stage7.
Proof. unfold stage7. committing. Qed.

Ltac pick_stage step :=
  unfold stages;
  repeat match goal with
         | |- context [step =? ?k] =>
             let E := fresh "E" in
             destruct (step =? k) eqn:E;
             [apply Z.eqb_eq in E; try subst step | apply Z.eqb_neq in E]
         end.

Lemma stages_all_or_nothing step u n mp :
  step <> 1 -> all_or_nothing (stages step u n mp).
Proof.
  intros H. pick_stage step; try contradiction;
    auto using stage2_atomic, stage3_atomic, stage4_atomic, stage5_atomic,
               stage6_atomic, stage7_atomic.
  destruct (step >=? 8); apply all_or_nothing_total; totality.
Qed.

Lemma stages_before_reboot step u n mp :
  all_or_nothing_before_reboot (stages step u n mp).
Proof.
  destruct (Z.eq_dec step 1) as [->|H].
  - apply stage1_before_reboot.
  - apply before_reboot_weaken. now apply stages_all_or_nothing.
Qed.

Lemma stages_commits step u n mp :
  1 <= step <= 7 -> commits (step + 1) (stages step u n mp).
Proof.
  intros H. pick_stage step; simpl;
    auto using stage1_commits, stage2_commits, stage3_commits, stage4_commits,
               stage5_commits, stage6_commits, stage7_commits.
  lia.
Qed.



(** *** [setup]: the network query, then the stage of the step read *)

Lemma get_network_address_runs w :
  exists network,
    get_network_address w = (Returned network, launched w, [EvExec network_query None]).
Proof.
  unfold get_network_address, bind, subprocess_run, ask, ret. simpl.
  destruct (spawn (machine w) (clock w) ["hostname"; "-I"] None) as [p| |];
    try (eexists; reflexivity).
  destruct (returncode p =? 0); [|eexists; reflexivity].
  destruct (first_word (strip (stdout p))); eexists; reflexivity.
Qed.

Lemma setup_runs_stage w :
  exists network,
    setup w =
      (let t := stages (read_step (flag w)) (username_of w) network (mount_point_of w)
                  (launched w) in
       (result_of t, world_of t, EvExec network_query None :: events_of t)).
Proof.
  destruct (get_network_address_runs w) as [network H]. exists network.
  unfold setup.
  rewrite (bind_pure get_step _ w (read_step (flag w)) eq_refl).
  rewrite (bind_pure get_username _ w (username_of w) eq_refl).
  rewrite (bind_returned get_network_address _ w _ _ _ H).
  rewrite (bind_pure (ask cfg) _ (launched w) (cfg (machine w)) eq_refl).
  reflexivity.
Qed.

(* ================================================================== *)
(** ** Configuration validation *)
(* ================================================================== *)

Lemma level_allowed_iff level :
  level_allowed level = true <-> level = 0 \/ level = 1 \/ level = 5 \/ level = 10.
Proof.
  unfold level_allowed. simpl. rewrite !orb_true_iff, !Z.eqb_eq. intuition discriminate.
Qed.

Lemma even_mod2 n : (n mod 2 =? 0) = Z.even n.
Proof. rewrite Zmod_even. now destruct (Z.even n). Qed.

Lemma cardinality_error_none level count :
  level_allowed level = true ->
  (cardinality_error level count = None <-> cardinality_rule level count).
Proof.
  intros H. apply level_allowed_iff in H. unfold cardinality_error, cardinality_rule.
  rewrite even_mod2.
  destruct H as [-> | [-> | [-> | ->]]]; simpl.
  - destruct (Z.ltb_spec count 2); split; intros; try discriminate; try lia; auto.
  - destruct (Z.eqb_spec count 2); simpl; split; intros; try discriminate; try lia; auto.
  - destruct (Z.ltb_spec count 3); split; intros; try discriminate; try lia; auto.
  - destruct (Z.ltb_spec count 4); simpl;
      [ split; intros; try discriminate; lia |].
    destruct (Z.even count) eqn:E; simpl; split; intros; try discriminate; auto.
    + right. right. left. auto.
    + destruct H0 as [[? _] | [[? _] | [[_ [_ ?]] | [? _]]]]; discriminate.
Qed.

Lemma cardinality_rule_allowed level count :
  cardinality_rule level count -> level_allowed level = true.
Proof.
  intros H. apply level_allowed_iff. unfold cardinality_rule in H. intuition.
Qed.

Lemma validate_config_result w :
  result_of (validate_config w) =
    if level_allowed (RAID_LEVEL (cfg (machine w))) then
      match cardinality_error (RAID_LEVEL (cfg (machine w)))
              (Z.of_nat (List.length (RAID_DEVICES (cfg (machine w))))) with
      | Some _ => Exited 1
      | None => Returned tt
      end
    else Exited 1.
Proof.
  unfold validate_config, bind, print, ask, sys_exit, result_of. simpl.
  destruct (level_allowed (RAID_LEVEL (cfg (machine w)))); [|reflexivity].
  simpl. now destruct (cardinality_error _ _).
Qed.

(** C3.  For every RAID level and every number of devices, [validate_config]
    returns exactly when the number satisfies the rule of the level (RAID 1:
    two devices; RAID 5: three or more; RAID 10: four or more and even;
    RAID 0: two or more); in every other case, a level outside the allowed
    ones included, the process exits with code 1. *)
Theorem validate_config_accepts_iff :
  forall w,
    let level := RAID_LEVEL (cfg (machine w)) in
    let count := Z.of_nat (List.length (RAID_DEVICES (cfg (machine w)))) in
    (result_of (validate_config w) = Returned tt <-> cardinality_rule level count) /\
    (~ cardinality_rule level count -> result_of (validate_config w) = Exited 1).
Proof.
  intros w level count. rewrite validate_config_result. fold level count.
  destruct (level_allowed level) eqn:Ha.
  - pose proof (cardinality_error_none level count Ha) as Hc.
    destruct (cardinality_error level count); split.
    + split; [discriminate | intros H; apply Hc in H; discriminate].
    + reflexivity.
    + split; [intros _; now apply Hc | reflexivity].
    + intros H. exfalso. apply H. apply Hc. reflexivity.
  - split; [|reflexivity].
    split; [discriminate|].
    intros H. apply cardinality_rule_allowed in H. congruence.
Qed.

Lemma validate_config_accepts_iff_witness :
  result_of (validate_config (pi Absent [])) = Returned tt /\
  result_of (validate_config
               (mkWorld (mkHost (mkConfig 5 ["/dev/sda"; "/dev/sdb"] "/dev/md0" "ext4"
                                   "storage" "Public" "/var/log/clamav_scan.log" 5000)
                           0 (fun _ => None) (fun _ => true) all_succeed all_written
                           "nas.py" (fun _ => None) (fun _ _ => EmptyString)
                           (fun _ => EmptyString))
                        Absent 0 [])) = Exited 1.
Proof.
  split.
  - apply (validate_config_accepts_iff (pi Absent [])).
    right. right. left. repeat split; vm_compute; congruence.
  - apply validate_config_accepts_iff.
    vm_compute. intros [[H _] | [[_ H] | [[H _] | [H _]]]]; try discriminate.
    now apply H.
Defined.

(* ================================================================== *)
(** ** The checkpoint store *)
(* ================================================================== *)

(** C9.  [get_step] always returns a value and touches nothing; it returns
    1 when the checkpoint file is absent, cannot be read, or does not hold
    an integer. *)
Theorem get_step_fail_open :
  forall w,
    (exists n, get_step w = (Returned n, w, [])) /\
    (flag w = Absent \/ flag w = Unreadable \/
     (exists text, flag w = Content text /\ int (strip text) = None) ->
     get_step w = (Returned 1, w, [])).
Proof.
  intros w. split.
  - now exists (read_step (flag w)).
  - unfold get_step, read_step.
    intros [-> | [-> | (text & -> & ->)]]; reflexivity.
Qed.

Lemma get_step_fail_open_witness :
  get_step (pi (Content "three") []) = (Returned 1, pi (Content "three") [], []).
Proof.
  apply (get_step_fail_open (pi (Content "three") [])).
  right. right. exists "three". split; reflexivity.
Defined.

(* ================================================================== *)
(** ** The command runners *)
(* ================================================================== *)

Lemma run_safe_runs cmd timeout w :
  run_safe cmd timeout w =
    (Returned match spawn (machine w) (clock w) cmd (Some timeout) with
              | Completed p => Some p
              | TimeoutExpired _ _ => None
              | SpawnError => None
              end,
     launched w, [EvExec cmd (Some timeout)]).
Proof.
  unfold run_safe, bind, subprocess_run, ret. simpl.
  now destruct (spawn (machine w) (clock w) cmd (Some timeout)).
Qed.

(** C7, as amended.  [run_safe] always returns to its caller and never
    exits or raises: it returns [None] when the command times out or cannot
    be started, and the completed process, with its return code and its
    captured output, whenever the command ran to its end, with a zero return
    code or not. *)
Theorem run_safe_never_aborts :
  forall cmd timeout w,
    (exists r, result_of (run_safe cmd timeout w) = Returned r) /\
    match spawn (machine w) (clock w) cmd (Some timeout) with
    | Completed p => result_of (run_safe cmd timeout w) = Returned (Some p)
    | TimeoutExpired _ _ => result_of (run_safe cmd timeout w) = Returned None
    | SpawnError => result_of (run_safe cmd timeout w) = Returned None
    end.
Proof.
  intros cmd timeout w. rewrite run_safe_runs. unpack.
  split; [eexists; reflexivity|].
  now destruct (spawn (machine w) (clock w) cmd (Some timeout)).
Qed.

(** C7, as written, fails: a command that exits with status 1 makes
    [run_safe] return the completed process, not an absent result. *)
Lemma run_safe_statement_fails : ~ run_safe_statement.
Proof.
  intros H. destruct (H ["false"] 60 pi_all_fail) as [_ H1].
  rewrite run_safe_runs in H1.
  assert (Hf : command_failed (spawn (machine pi_all_fail) (clock pi_all_fail) ["false"] (Some 60)))
    by (vm_compute; discriminate).
  specialize (H1 Hf). vm_compute in H1. discriminate H1.
Qed.

Lemma run_result cmd timeout w :
  result_of (run cmd timeout w) =
    match spawn (machine w) (clock w) cmd (Some timeout) with
    | Completed p => if returncode p =? 0 then Returned p else Exited 1
    | TimeoutExpired _ _ => Exited 1
    | SpawnError => Raised OSError
    end.
Proof.
  unfold run, bind, print, subprocess_run, ask, when, sys_exit, raise, ret, result_of. simpl.
  destruct (spawn (machine w) (clock w) cmd (Some timeout)) as [p| |]; try reflexivity.
  destruct (returncode p =? 0); [reflexivity|].
  simpl. destruct (truthy (stdout p)), (truthy (stderr p)); reflexivity.
Qed.

Lemma truthy_iff s : truthy s = true <-> s <> EmptyString.
Proof. destruct s; simpl; split; congruence. Qed.

(** C8, as amended.  [run] returns the completed process when, and only
    when, the command exits with status zero.  When the command exits with
    another status the process exits with code 1 after printing the part of
    the captured stdout and stderr that is not empty, stripped; when the
    command exceeds its timeout the process exits with code 1 after printing
    the timeout message only. *)
Theorem run_is_fatal_on_failure :
  forall cmd timeout w,
    match spawn (machine w) (clock w) cmd (Some timeout) with
    | Completed p =>
        if returncode p =? 0 then run cmd timeout w
             = (Returned p, launched w,
                [EvPrint ("[*] 실행: " ++ join " " cmd); EvExec cmd (Some timeout)])
        else
          result_of (run cmd timeout w) = Exited 1 /\
          (stdout p <> EmptyString ->
           In (EvPrint ("--- STDOUT ---" ++ nl ++ strip (stdout p)))
              (events_of (run cmd timeout w))) /\
          (stderr p <> EmptyString ->
           In (EvPrint ("--- STDERR ---" ++ nl ++ strip (stderr p)))
              (events_of (run cmd timeout w)))
    | TimeoutExpired _ _ =>
        run cmd timeout w
          = (Exited 1, launched w,
             [EvPrint ("[*] 실행: " ++ join " " cmd); EvExec cmd (Some timeout);
              EvPrint ("[!] 명령어 실행 시간 초과 (" ++ str timeout ++ "초)")])
    | SpawnError => True
    end /\
    (forall p, result_of (run cmd timeout w) = Returned p ->
               spawn (machine w) (clock w) cmd (Some timeout) = Completed p /\
               returncode p = 0).
Proof.
  intros cmd timeout w. split.
  - pose proof (run_result cmd timeout w) as Hr.
    unfold run, bind, print, subprocess_run, ask, when, sys_exit, raise, ret, events_of in *.
    simpl in *.
    destruct (spawn (machine w) (clock w) cmd (Some timeout)) as [p| |]; try reflexivity; auto.
    destruct (returncode p =? 0); [reflexivity|].
    split; [exact Hr|]. simpl.
    split; intros H; apply truthy_iff in H; rewrite H; simpl.
    + destruct (truthy (stderr p)); simpl; auto 10.
    + destruct (truthy (stdout p)); simpl; auto 10.
  - intros p. rewrite run_result.
    destruct (spawn (machine w) (clock w) cmd (Some timeout)) as [q| |]; try discriminate.
    destruct (returncode q =? 0) eqn:E; [|discriminate].
    intros H. inversion H. subst. split; [reflexivity | now apply Z.eqb_eq].
Qed.

Lemma run_is_fatal_on_failure_witness :
  result_of (run ["reboot"] 300 pi_reboot_refused) = Exited 1 /\
  In (EvPrint ("--- STDERR ---" ++ nl ++ "Failed to talk to init daemon."))
     (events_of (run ["reboot"] 300 pi_reboot_refused)).
Proof.
  destruct (run_is_fatal_on_failure ["reboot"] 300 pi_reboot_refused) as [H _].
  vm_compute in H. destruct H as (H1 & _ & H3).
  split; [exact H1|]. apply H3. discriminate.
Defined.

(** C8, as written, fails: when the command exceeds its timeout nothing of
    what it had written to stdout and stderr is printed. *)
Lemma run_statement_fails : ~ run_statement.
Proof.
  intros H. specialize (H ["apt-get"; "update"] 300 pi_all_time_out).
  vm_compute in H. destruct H as (_ & (line & Hin & Hc) & _).
  destruct Hin as [E | [E | [E | []]]]; try discriminate;
    inversion E; subst line; vm_compute in Hc; discriminate.
Qed.

(* ================================================================== *)
(** ** The confirmation prompt *)
(* ================================================================== *)

Lemma confirm_action_runs prompt w :
  confirm_action prompt w =
    match stdin w with
    | [] =>
        (Raised EOFError, w,
         [EvPrint (nl ++ "[!!! 경고 !!!] " ++ prompt); EvInput question None])
    | answer :: rest =>
        if affirmative answer then
          (Returned tt, mkWorld (machine w) (flag w) (clock w) rest,
           [EvPrint (nl ++ "[!!! 경고 !!!] " ++ prompt); EvInput question (Some answer);
            EvPrint "[*] 작업을 계속합니다."])
        else
          (Exited 0, mkWorld (machine w) (flag w) (clock w) rest,
           [EvPrint (nl ++ "[!!! 경고 !!!] " ++ prompt); EvInput question (Some answer);
            EvPrint "[*] 작업을 취소했습니다."])
    end.
Proof.
  unfold confirm_action, bind, print, input, sys_exit, affirmative. simpl.
  destruct (stdin w) as [|answer rest]; [reflexivity|].
  now destruct (String.eqb (lower answer) "yes").
Qed.

(** C5, as amended.  [confirm_action] compares the answer in lower case: an
    answer whose lower-case form is not [yes] ends the process with exit
    code 0, the checkpoint and the host untouched and no mutating event
    emitted; an answer whose lower-case form is [yes] makes it return, so
    that the stage goes on. *)
Theorem confirm_action_gate :
  forall prompt w answer rest,
    stdin w = answer :: rest ->
    (affirmative answer = false ->
       result_of (confirm_action prompt w) = Exited 0 /\
       flag (world_of (confirm_action prompt w)) = flag w /\
       Forall (fun e => mutating e = false) (events_of (confirm_action prompt w))) /\
    (affirmative answer = true ->
       result_of (confirm_action prompt w) = Returned tt /\
       flag (world_of (confirm_action prompt w)) = flag w).
Proof.
  intros prompt w answer rest Hin. rewrite confirm_action_runs, Hin.
  split; intros ->; unpack; repeat split; repeat constructor.
Qed.

Lemma confirm_action_gate_witness :
  result_of (confirm_action "wipe" (pi (Content "3") ["no"])) = Exited 0 /\
  result_of (confirm_action "wipe" (pi (Content "3") ["Yes"])) = Returned tt.
Proof.
  split.
  - apply (confirm_action_gate "wipe" (pi (Content "3") ["no"]) "no" []); reflexivity.
  - apply (confirm_action_gate "wipe" (pi (Content "3") ["Yes"]) "Yes" []); reflexivity.
Defined.

(** C5, as written, fails: the answer [YES] is not the token [yes], and the
    process does not exit. *)
Lemma exact_token_statement_fails : ~ exact_token_statement.
Proof.
  intros H.
  specialize (H "wipe" (pi (Content "3") ["YES"]) "YES" [] eq_refl).
  assert (Hne : "YES" <> "yes") by discriminate.
  specialize (H Hne). vm_compute in H. discriminate.
Qed.

(* ================================================================== *)
(** ** The stage controller *)
(* ================================================================== *)

Ltac no_such_event :=
  let H := fresh "H" in
  vm_compute; intros H;
  repeat (destruct H as [H | H]; [discriminate H |]); exact H.

(** C1, as amended.  When [setup] aborts (a required command failed or
    timed out, a validation failed, the operator declined) the checkpoint
    file is what it was before, hence so is the step read by the next
    invocation, in every stage other than stage 1, and in stage 1 as long as
    [reboot] has not been launched: stages 2 to 7 write the checkpoint after
    their last command, stage 1 writes it before its last command. *)
Theorem failed_stage_keeps_checkpoint :
  forall w,
    aborted (result_of (setup w)) ->
    read_step (flag w) <> 1 \/ ~ In reboot_event (events_of (setup w)) ->
    flag (world_of (setup w)) = flag w /\
    read_step (flag (world_of (setup w))) = read_step (flag w).
Proof.
  intros w Ha Hs.
  assert (E : flag (world_of (setup w)) = flag w); [|now rewrite E].
  destruct (setup_runs_stage w) as [network Hsetup].
  rewrite Hsetup in *. cbv zeta in *. unpack.
  change (flag w) with (flag (launched w)).
  destruct Hs as [Hs | Hs].
  - now apply (stages_all_or_nothing _ _ _ _ Hs).
  - apply (stages_before_reboot (read_step (flag w))); [assumption|].
    intros Hin. apply Hs. now right.
Qed.

Lemma failed_stage_keeps_checkpoint_witness :
  flag (world_of (setup pi_all_fail)) = flag pi_all_fail /\
  read_step (flag (world_of (setup pi_all_fail))) = read_step (flag pi_all_fail).
Proof.
  apply (failed_stage_keeps_checkpoint pi_all_fail).
  - vm_compute. exact I.
  - right. no_such_event.
Defined.

(** C1, as written, fails in stage 1: when [reboot], the last required
    command of the stage, exits with a non-zero status, the process exits
    with code 1 and the checkpoint, written before the launch, is already 2. *)
Lemma reboot_failure_leaves_checkpoint_advanced :
  command_failed (spawn (machine pi_reboot_refused) 3 ["reboot"] (Some 300)) /\
  result_of (setup pi_reboot_refused) = Exited 1 /\
  In reboot_event (events_of (setup pi_reboot_refused)) /\
  read_step (flag pi_reboot_refused) = 1 /\
  read_step (flag (world_of (setup pi_reboot_refused))) = 2.
Proof.
  repeat split; try (vm_compute; congruence).
  vm_compute. tauto.
Qed.

(** C2, as amended.  When a stage runs to its end and the write of the
    checkpoint file succeeds, the step read afterwards is the step read
    before plus 1.  (A failed write is reported by [set_step] and the stage
    still runs to its end.) *)
Theorem completed_stage_advances_by_one :
  forall w,
    1 <= read_step (flag w) <= 7 ->
    file_write (machine w) FLAG_FILE = WriteDone ->
    result_of (setup w) = Returned tt ->
    read_step (flag (world_of (setup w))) = read_step (flag w) + 1.
Proof.
  intros w Hs Hw Hr.
  destruct (setup_runs_stage w) as [network Hsetup].
  rewrite Hsetup in *. cbv zeta in *.
  pose proof (stages_commits _ (username_of w) network (mount_point_of w) Hs (launched w) Hw)
    as Hc.
  unpack. rewrite Hc.
  - apply read_step_str.
  - now exists tt.
Qed.

Lemma completed_stage_advances_by_one_witness :
  read_step (flag (world_of (setup (pi (Content "2") [])))) = 3.
Proof.
  apply (completed_stage_advances_by_one (pi (Content "2") [])).
  - vm_compute. split; discriminate.
  - reflexivity.
  - vm_compute. reflexivity.
Defined.

(** C2, as written, fails: on a machine where the checkpoint file cannot be
    opened for writing, stage 2 runs to its end, every command having
    succeeded, and the step read afterwards is still 2. *)
Lemma unwritable_checkpoint_is_not_advanced :
  result_of (setup pi_flag_read_only) = Returned tt /\
  In (EvPrint "[*] 2단계 완료 → 다음 단계 진행") (events_of (setup pi_flag_read_only)) /\
  read_step (flag pi_flag_read_only) = 2 /\
  read_step (flag (world_of (setup pi_flag_read_only))) = 2.
Proof.
  repeat split; try (vm_compute; congruence).
  vm_compute. tauto.
Qed.

(** *** Confirmation comes first *)

Lemma gated_prefix l tail prompt answer :
  Forall (fun e => mutating e = false) l ->
  In (EvInput prompt (Some answer)) l -> affirmative answer = true ->
  gated (l ++ tail).
Proof.
  intros Hq Hin Ha pre e post E He.
  exists prompt, answer. split; [|exact Ha].
  apply app_eq_app in E. destruct E as [l' [[E1 E2] | [E1 E2]]].
  - destruct l' as [|e' l'].
    + rewrite app_nil_r in E1. now subst.
    + simpl in E2. inversion E2. subst e'. subst l.
      rewrite Forall_forall in Hq.
      rewrite (Hq e) in He; [discriminate|].
      apply in_or_app. right. now left.
  - subst pre. apply in_or_app. now left.
Qed.

Lemma gated_quiet l : Forall (fun e => mutating e = false) l -> gated l.
Proof.
  intros Hq pre e post E He. rewrite Forall_forall in Hq.
  rewrite (Hq e) in He; [discriminate|].
  rewrite E. apply in_or_app. right. now left.
Qed.

Lemma gated_behind_confirmation {B} first s prompt (k : unit -> M B) w :
  mutating first = false ->
  gated (first :: events_of ((print s;; u <- confirm_action prompt;; k u) w)).
Proof.
  intros Hf.
  rewrite (bind_returned (print s) _ w tt w [EvPrint s] eq_refl).
  unfold bind. rewrite confirm_action_runs.
  destruct (stdin w) as [|answer rest]; [|destruct (affirmative answer) eqn:Ha].
  - apply gated_quiet. unpack. repeat constructor. exact Hf.
  - destruct (k tt _) as [[r w2] e2]. unpack.
    apply (gated_prefix
             [first; EvPrint s; EvPrint (nl ++ "[!!! 경고 !!!] " ++ prompt);
              EvInput question (Some answer); EvPrint "[*] 작업을 계속합니다."]
             e2 question answer).
    + repeat constructor. exact Hf.
    + simpl. auto.
    + exact Ha.
  - apply gated_quiet. unpack. repeat constructor. exact Hf.
Qed.

Lemma stage3_gated first w :
  mutating first = false -> gated (first :: events_of (stage3 w)).
Proof.
  intros Hf. unfold stage3.
  rewrite (bind_pure (ask cfg) _ w (cfg (machine w)) eq_refl).
  now apply gated_behind_confirmation.
Qed.

Lemma stage4_gated first w :
  mutating first = false -> gated (first :: events_of (stage4 w)).
Proof.
  intros Hf. unfold stage4.
  rewrite (bind_pure (ask cfg) _ w (cfg (machine w)) eq_refl). cbv zeta.
  now apply gated_behind_confirmation.
Qed.

(** C6.  In the two destructive stages, 3 (the [wipefs] of every device) and
    4 ([mdadm --create]), every mutating event of [setup] (every subprocess
    launch other than the network query, every file write) comes after the
    confirmation prompt has been answered by a yes. *)
Theorem destructive_stages_wait_for_confirmation :
  forall w pre e post,
    read_step (flag w) = 3 \/ read_step (flag w) = 4 ->
    events_of (setup w) = (pre ++ e :: post)%list ->
    mutating e = true ->
    exists prompt answer,
      In (EvInput prompt (Some answer)) pre /\ affirmative answer = true.
Proof.
  intros w pre e post Hs.
  destruct (setup_runs_stage w) as [network Hsetup].
  rewrite Hsetup. cbv zeta. unfold events_of at 1. simpl snd.
  destruct Hs as [-> | ->]; simpl stages.
  - now apply stage3_gated.
  - now apply stage4_gated.
Qed.

Lemma destructive_stages_wait_for_confirmation_witness :
  exists prompt answer,
    In (EvInput prompt (Some answer))
       (firstn 7 (events_of (setup (pi (Content "3") ["yes"])))) /\
    affirmative answer = true.
Proof.
  apply (destructive_stages_wait_for_confirmation
           (pi (Content "3") ["yes"]) _
           (EvExec ["wipefs"; "--all"; "/dev/sda"] (Some 300))
           (skipn 8 (events_of (setup (pi (Content "3") ["yes"]))))).
  - left. reflexivity.
  - vm_compute. reflexivity.
  - reflexivity.
Defined.

(** *** Steps outside 1..7 *)

Lemma check_root_as_root w : euid (machine w) = 0 -> check_root w = (Returned tt, w, []).
Proof. intros H. unfold check_root, bind, ask. simpl. now rewrite H. Qed.






Lemma untouched_start_dashboard : untouched start_dashboard.
Proof. unfold start_dashboard. untouch. Qed.








(* ================================================================== *)
(** ** More on the checkpoint store *)
(* ================================================================== *)

Lemma set_step_runs n w :
  set_step n w =
    (Returned tt,
     mkWorld (machine w)
       (flag_after ModeW (str n) (file_write (machine w) FLAG_FILE) (flag w))
       (clock w) (stdin w),
     EvWrite FLAG_FILE ModeW (str n) (file_write (machine w) FLAG_FILE)
       :: match file_write (machine w) FLAG_FILE with
          | WriteDone => []
          | _ => [EvPrint ("[!] 단계 저장 오류: " ++ write_error_str (machine w) FLAG_FILE)]
          end).
Proof.
  unfold set_step, bind, write_file, ask, print, ret. simpl.
  now destruct (file_write (machine w) FLAG_FILE).
Qed.

(** X1.  [set_step] always returns.  When its write succeeds, the step that
    [get_step] reads afterwards is the step written, for every integer;
    when the file cannot be opened the checkpoint is what it was; when the
    write fails after the file was opened for writing, the file is left
    empty and the step read afterwards is 1. *)
Theorem set_step_then_get_step :
  forall n w,
    result_of (set_step n w) = Returned tt /\
    match file_write (machine w) FLAG_FILE with
    | WriteDone => get_step (world_of (set_step n w))
                   = (Returned n, world_of (set_step n w), [])
    | OpenRaises => flag (world_of (set_step n w)) = flag w
    | WriteRaises => get_step (world_of (set_step n w))
                     = (Returned 1, world_of (set_step n w), [])
    end.
Proof.
  intros n w. rewrite set_step_runs. unfold get_step. unpack.
  split; [reflexivity|].
  destruct (file_write (machine w) FLAG_FILE); try reflexivity.
  change (flag_after ModeW (str n) WriteDone (flag w)) with (Content (str n)).
  now rewrite read_step_str.
Qed.

(* ================================================================== *)
(** ** More on the validators and the main program *)
(* ================================================================== *)

Lemma launches_app e1 e2 : launches (e1 ++ e2) = (launches e1 ++ launches e2)%list.
Proof.
  induction e1 as [|e e1 IH]; simpl; [reflexivity|].
  destruct e; simpl; now rewrite ?IH.
Qed.

Lemma os_path_exists_runs path w : os_path_exists path w = (Returned (present w path), w, []).
Proof. reflexivity. Qed.

Lemma missing_of_runs devices w :
  missing_of devices w =
    (Returned (filter (fun device => negb (present w device)) devices), w, []).
Proof.
  induction devices as [|device rest IH]; simpl; [reflexivity|].
  rewrite (bind_pure _ _ w _ (os_path_exists_runs device w)).
  rewrite (bind_pure _ _ w _ IH).
  unfold ret. now destruct (present w device).
Qed.

Lemma validate_devices_runs w :
  validate_devices w =
    match missing_devices_of w with
    | [] =>
        (Returned tt, w,
         [EvPrint "[*] 디스크 장치 존재 여부 확인..."; EvPrint "[*] 모든 디스크 장치가 존재합니다."])
    | device :: others =>
        (Exited 1, launched w,
         [EvPrint "[*] 디스크 장치 존재 여부 확인...";
          EvPrint ("[!] 오류: 다음 디스크를 찾을 수 없습니다: " ++ join ", " (device :: others));
          EvPrint "[*] 사용 가능한 블록 디바이스 목록:";
          EvExec lsblk None;
          EvPrint match spawn (machine w) (clock w) lsblk None with
                  | Completed p =>
                      if returncode p =? 0 then stdout p
                      else "블록 디바이스 목록을 가져올 수 없습니다."
                  | _ => "블록 디바이스 목록을 가져올 수 없습니다."
                  end])
    end.
Proof.
  unfold validate_devices, missing_devices_of.
  rewrite (bind_returned (print _) _ w tt w _ eq_refl).
  rewrite (bind_pure (ask cfg) _ w _ eq_refl).
  rewrite (bind_pure _ _ w _ (missing_of_runs _ w)).
  destruct (filter _ _) as [|device others]; [reflexivity|].
  unfold bind, print, subprocess_run, sys_exit, lsblk. unpack.
  destruct (spawn (machine w) (clock w) _ None) as [p| |]; try reflexivity.
  now destruct (returncode p =? 0).
Qed.

(** X2.  [validate_devices] returns exactly when every configured device
    exists, and then it launches nothing.  Otherwise it names the missing
    devices, in the order of the configuration, launches [lsblk] once and
    exits with code 1, whatever [lsblk] does; the checkpoint is untouched. *)
Theorem validate_devices_checks_every_device :
  forall w,
    (result_of (validate_devices w) = Returned tt <-> missing_devices_of w = []) /\
    (missing_devices_of w = [] -> launches (events_of (validate_devices w)) = []) /\
    (missing_devices_of w <> [] ->
       result_of (validate_devices w) = Exited 1 /\
       launches (events_of (validate_devices w)) = [lsblk] /\
       In (EvPrint ("[!] 오류: 다음 디스크를 찾을 수 없습니다: "
                    ++ join ", " (missing_devices_of w)))
          (events_of (validate_devices w)) /\
       flag (world_of (validate_devices w)) = flag w).
Proof.
  intros w. rewrite validate_devices_runs.
  destruct (missing_devices_of w) as [|device others]; unpack.
  - repeat split; auto;
      match goal with H : [] <> [] |- _ => now destruct H end.
  - repeat split; try discriminate; simpl; auto.
Qed.

Lemma validate_devices_checks_every_device_witness :
  result_of (validate_devices (pi Absent [])) = Returned tt.
Proof.
  apply (validate_devices_checks_every_device (pi Absent [])). reflexivity.
Defined.

(* ================================================================== *)
(** ** What the stages launch *)
(* ================================================================== *)

Section Bind_equations.

Context {A B : Type}.
Variable m : M A.
Variable k : A -> M B.

Lemma bind_result w :
  result_of (bind m k w) =
    match result_of (m w) with
    | Returned a => result_of (k a (world_of (m w)))
    | Exited c => Exited c
    | Raised x => Raised x
    end.
Proof.
  unfold bind. destruct (m w) as [[[a|c|x] w1] e1]; unpack; try reflexivity.
  now destruct (k a w1) as [[r w2] e2].
Qed.

Lemma bind_world w :
  world_of (bind m k w) =
    match result_of (m w) with
    | Returned a => world_of (k a (world_of (m w)))
    | _ => world_of (m w)
    end.
Proof.
  unfold bind. destruct (m w) as [[[a|c|x] w1] e1]; unpack; try reflexivity.
  now destruct (k a w1) as [[r w2] e2].
Qed.

Lemma bind_launches w :
  launches (events_of (bind m k w)) =
    (launches (events_of (m w)) ++
     match result_of (m w) with
     | Returned a => launches (events_of (k a (world_of (m w))))
     | _ => []
     end)%list.
Proof.
  unfold bind. destruct (m w) as [[[a|c|x] w1] e1]; unpack;
    try (now rewrite app_nil_r).
  destruct (k a w1) as [[r w2] e2]. unpack. apply launches_app.
Qed.

End Bind_equations.

Lemma print_result s w : result_of (print s w) = Returned tt. Proof. reflexivity. Qed.
Lemma print_world s w : world_of (print s w) = w. Proof. reflexivity. Qed.
Lemma print_launches s w : launches (events_of (print s w)) = []. Proof. reflexivity. Qed.

Lemma run_world cmd t w : world_of (run cmd t w) = launched w.
Proof.
  unfold run, bind, print, subprocess_run, ask, when, sys_exit, raise, ret, world_of. simpl.
  destruct (spawn (machine w) (clock w) cmd (Some t)) as [p| |]; try reflexivity.
  destruct (returncode p =? 0); [reflexivity|].
  simpl. now destruct (truthy (stdout p)), (truthy (stderr p)).
Qed.

Lemma run_launches_once cmd t w : launches (events_of (run cmd t w)) = [cmd].
Proof.
  unfold run, bind, print, subprocess_run, ask, when, sys_exit, raise, ret, events_of. simpl.
  destruct (spawn (machine w) (clock w) cmd (Some t)) as [p| |]; try reflexivity.
  destruct (returncode p =? 0); [reflexivity|].
  simpl. now destruct (truthy (stdout p)), (truthy (stderr p)).
Qed.

Lemma set_step_result n w : result_of (set_step n w) = Returned tt.
Proof. now rewrite set_step_runs. Qed.

Lemma set_step_launches_nothing n w : launches (events_of (set_step n w)) = [].
Proof.
  rewrite set_step_runs. unpack. now destruct (file_write (machine w) FLAG_FILE).
Qed.

Lemma validate_devices_result w :
  result_of (validate_devices w) =
    match missing_devices_of w with [] => Returned tt | _ => Exited 1 end.
Proof. rewrite validate_devices_runs. now destruct (missing_devices_of w). Qed.

Lemma validate_devices_launches w :
  launches (events_of (validate_devices w)) =
    match missing_devices_of w with [] => [] | _ => [lsblk] end.
Proof. rewrite validate_devices_runs. now destruct (missing_devices_of w). Qed.

Lemma validate_devices_world w :
  flag (world_of (validate_devices w)) = flag w /\
  (missing_devices_of w = [] -> world_of (validate_devices w) = w).
Proof. rewrite validate_devices_runs. now destruct (missing_devices_of w). Qed.

Lemma setup_launches w :
  exists network,
    launches (events_of (setup w)) =
      network_query
        :: launches (events_of (stages (read_step (flag w)) (username_of w) network
                                   (mount_point_of w) (launched w))) /\
    result_of (setup w) =
      result_of (stages (read_step (flag w)) (username_of w) network
                   (mount_point_of w) (launched w)) /\
    world_of (setup w) =
      world_of (stages (read_step (flag w)) (username_of w) network
                  (mount_point_of w) (launched w)).
Proof.
  destruct (setup_runs_stage w) as [network ->]. exists network. now unpack.
Qed.


Lemma ask_result {A} (f : host -> A) w : result_of (ask f w) = Returned (f (machine w)).
Proof. reflexivity. Qed.
Lemma ask_world {A} (f : host -> A) w : world_of (ask f w) = w. Proof. reflexivity. Qed.
Lemma ask_launches {A} (f : host -> A) w : launches (events_of (ask f w)) = [].
Proof. reflexivity. Qed.
Lemma ret_result {A} (a : A) w : result_of (ret a w) = Returned a. Proof. reflexivity. Qed.
Lemma ret_world {A} (a : A) w : world_of (ret a w) = w. Proof. reflexivity. Qed.
Lemma ret_launches {A} (a : A) w : launches (events_of (ret a w)) = []. Proof. reflexivity. Qed.
Lemma sleep_result n w : result_of (sleep n w) = Returned tt. Proof. reflexivity. Qed.
Lemma sleep_world n w : world_of (sleep n w) = w. Proof. reflexivity. Qed.
Lemma sleep_launches n w : launches (events_of (sleep n w)) = []. Proof. reflexivity. Qed.

Create Rewrite HintDb trace.

#[export] Hint Rewrite @bind_result @bind_world @bind_launches
  print_result print_world print_launches @ask_result @ask_world @ask_launches
  @ret_result @ret_world @ret_launches sleep_result sleep_world sleep_launches
  run_world run_launches_once set_step_result set_step_launches_nothing
  validate_devices_result validate_devices_launches app_nil_r : trace.
Lemma confirm_action_launches p w : launches (events_of (confirm_action p w)) = [].
Proof.
  rewrite confirm_action_runs.
  destruct (stdin w) as [|a rest]; [reflexivity|]. now destruct (affirmative a).
Qed.

Lemma confirm_action_result p w :
  result_of (confirm_action p w) =
    match stdin w with
    | [] => Raised EOFError
    | answer :: _ => if affirmative answer then Returned tt else Exited 0
    end.
Proof.
  rewrite confirm_action_runs.
  destruct (stdin w) as [|a rest]; [reflexivity|]. now destruct (affirmative a).
Qed.

#[export] Hint Rewrite confirm_action_launches confirm_action_result : trace.




(* ================================================================== *)
(** ** Best-effort steps *)
(* ================================================================== *)

Lemma run_safe_result cmd t w :
  result_of (run_safe cmd t w) = Returned (completed (spawn (machine w) (clock w) cmd (Some t))).
Proof.
  rewrite run_safe_runs. unpack.
  now destruct (spawn (machine w) (clock w) cmd (Some t)).
Qed.

Lemma run_safe_world cmd t w : world_of (run_safe cmd t w) = launched w.
Proof. now rewrite run_safe_runs. Qed.

Lemma run_safe_launches cmd t w : launches (events_of (run_safe cmd t w)) = [cmd].
Proof. now rewrite run_safe_runs. Qed.

#[export] Hint Rewrite run_safe_result run_safe_world run_safe_launches : trace.

Lemma setup_clamav_returns w : result_of (setup_clamav w) = Returned tt.
Proof.
  unfold setup_clamav. autorewrite with trace. simpl.
  destruct (succeeded _); autorewrite with trace; simpl;
    destruct (succeeded _); now autorewrite with trace.
Qed.

(** X8.  [setup_clamav] is best effort: whatever its commands do (fail,
    time out, not start) it returns, with the checkpoint untouched, after
    having launched the same sequence of commands: the stop of the
    signature updater, the four commands on its log file, [pgrep], [pkill]
    exactly when [pgrep] exited with status 0, [freshclam], and the start
    and the enabling of the updater that was stopped at the beginning. *)
Theorem setup_clamav_is_best_effort :
  forall w,
    result_of (setup_clamav w) = Returned tt /\
    flag (world_of (setup_clamav w)) = flag w /\
    launches (events_of (setup_clamav w)) =
      ([["systemctl"; "stop"; "clamav-freshclam"];
        ["mkdir"; "-p"; "/var/log/clamav"];
        ["touch"; "/var/log/clamav/freshclam.log"];
        ["chown"; "clamav:clamav"; "/var/log/clamav/freshclam.log"];
        ["chmod"; "644"; "/var/log/clamav/freshclam.log"];
        ["pgrep"; "freshclam"]]
       ++ (if succeeded (completed (spawn (machine w) (5 + clock w) ["pgrep"; "freshclam"]
                                      (Some 60)))
           then [["pkill"; "freshclam"]] else [])
       ++ [["freshclam"];
           ["systemctl"; "start"; "clamav-freshclam"];
           ["systemctl"; "enable"; "clamav-freshclam"]])%list.
Proof.
  intros w. split; [|split].
  - apply setup_clamav_returns.
  - apply untouched_setup_clamav.
  - unfold setup_clamav. autorewrite with trace. simpl.
    destruct (succeeded _); autorewrite with trace; simpl;
      destruct (succeeded _); now autorewrite with trace.
Qed.
(* ================================================================== *)
(** ** One stage per invocation *)
(* ================================================================== *)

Lemma advances_bind {A B} n (m : M A) (k : A -> M B) :
  untouched m -> (forall a, advances_to n (k a)) -> advances_to n (bind m k).
Proof.
  intros Hm Hk w. destruct (Hm w) as (_ & Hf & _). rewrite bind_world.
  destruct (result_of (m w)) as [a|c|x]; auto.
  rewrite <- Hf. apply Hk.
Qed.

Lemma advances_untouched {A} n (m : M A) : untouched m -> advances_to n m.
Proof. intros Hm w. left. apply Hm. Qed.

Lemma advances_set_step n : advances_to n (set_step n).
Proof.
  intros w. rewrite set_step_runs. unpack.
  destruct (file_write (machine w) FLAG_FILE); simpl; auto.
Qed.

Lemma advances_set_step_then {B} n (k : unit -> M B) :
  (forall u, untouched (k u)) -> advances_to n (bind (set_step n) k).
Proof.
  intros Hk w. rewrite bind_world, set_step_result.
  destruct (Hk tt (world_of (set_step n w))) as (_ & -> & _).
  apply advances_set_step.
Qed.

Ltac advancing :=
  to_checkpoint ltac:(apply advances_bind)
    ltac:(first [apply advances_set_step_then; solve [untouch] | apply advances_set_step]).

Lemma stages_advance step u n mp : advances_to (step + 1) (stages step u n mp).
Proof.
  pick_stage step; simpl.
  - unfold stage1. advancing.
  - unfold stage2. advancing.
  - unfold stage3. advancing.
  - unfold stage4. advancing.
  - unfold stage5. advancing.
  - unfold stage6. advancing.
  - unfold stage7. advancing.
  - apply advances_untouched. destruct (step >=? 8); untouch.
Qed.

Lemma stages_idle step u n mp : ~ 1 <= step <= 7 -> untouched (stages step u n mp).
Proof.
  intros H. pick_stage step; try lia. destruct (step >=? 8); untouch.
Qed.

Lemma setup_advance w :
  flag (world_of (setup w)) = flag w \/
  1 <= read_step (flag w) <= 7 /\
  (flag (world_of (setup w)) = Content (str (read_step (flag w) + 1)) \/
   flag (world_of (setup w)) = Content EmptyString).
Proof.
  destruct (setup_launches w) as (network & _ & _ & ->).
  destruct (Z_le_dec 1 (read_step (flag w))) as [H1|H1];
    [destruct (Z_le_dec (read_step (flag w)) 7) as [H7|H7]|].
  - destruct (stages_advance (read_step (flag w)) (username_of w) network (mount_point_of w)
                (launched w)) as [H | H]; auto.
  - left.
    refine (proj1 (proj2 (stages_idle (read_step (flag w)) (username_of w) network
                            (mount_point_of w) _ (launched w)))).
    lia.
  - left.
    refine (proj1 (proj2 (stages_idle (read_step (flag w)) (username_of w) network
                            (mount_point_of w) _ (launched w)))).
    lia.
Qed.

Lemma main_world w :
  flag (world_of (main w)) = flag w \/
  exists w1, flag w1 = flag w /\ flag (world_of (main w)) = flag (world_of (setup w1)).
Proof.
  unfold main. rewrite bind_world.
  destruct (untouched_check_root w) as (_ & Hf0 & _).
  destruct (result_of (check_root w)); auto.
  rewrite (bind_pure get_step _ _ _ eq_refl), bind_world.
  set (w0 := world_of (check_root w)) in *.
  assert (Hv : untouched (when (read_step (flag w0) =? 1) validate_config))
    by (apply untouched_when, untouched_validate_config).
  destruct (Hv w0) as (_ & Hf1 & _).
  destruct (result_of (when _ validate_config w0)); [|left; congruence ..].
  right. exists (world_of (when (read_step (flag w0) =? 1) validate_config w0)).
  split; [congruence|].
  rewrite bind_world.
  destruct (result_of (setup _)); try reflexivity.
  assert (Hk : untouched (step <- get_step;; if step >=? 8 then start_dashboard else ret tt)).
  { apply untouched_bind; [apply untouched_get_step|].
    intros step. destruct (step >=? 8); [apply untouched_start_dashboard | apply untouched_ret]. }
  apply Hk.
Qed.

(** X11.  One invocation of the main program moves the checkpoint by one
    stage at most, whatever happens in it: afterwards the checkpoint file
    is what it was, or, the step read before being between 1 and 7, it
    holds that step plus 1 or has been left empty by a write that failed
    after the file was opened.  Hence the step read by the next invocation
    is the same step, that step plus 1, or 1. *)
Theorem invocation_moves_checkpoint_by_at_most_one :
  forall w,
    (flag (world_of (main w)) = flag w \/
     1 <= read_step (flag w) <= 7 /\
     (flag (world_of (main w)) = Content (str (read_step (flag w) + 1)) \/
      flag (world_of (main w)) = Content EmptyString)) /\
    (read_step (flag (world_of (main w))) = read_step (flag w) \/
     read_step (flag (world_of (main w))) = read_step (flag w) + 1 \/
     read_step (flag (world_of (main w))) = 1).
Proof.
  intros w.
  assert (H : flag (world_of (main w)) = flag w \/
              1 <= read_step (flag w) <= 7 /\
              (flag (world_of (main w)) = Content (str (read_step (flag w) + 1)) \/
               flag (world_of (main w)) = Content EmptyString)).
  { destruct (main_world w) as [H | (w1 & H1 & ->)]; auto.
    destruct (setup_advance w1) as [H | H]; rewrite H1 in H; auto. }
  split; [exact H|].
  destruct H as [-> | (_ & [-> | ->])]; auto.
  right. left. apply read_step_str.
Qed.
(* ================================================================== *)
(** ** Progress on an obliging host *)
(* ================================================================== *)

Lemma cooperative_bind {A B} (m : M A) (k : A -> M B) :
  cooperative m -> (forall a, cooperative (k a)) -> cooperative (bind m k).
Proof.
  intros Hm Hk w Hw. destruct (Hm w Hw) as ([a Ha] & Hh).
  rewrite bind_result, bind_world, Ha.
  rewrite <- Hh in Hw. destruct (Hk a _ Hw) as (Hr & Hh').
  split; [exact Hr | congruence].
Qed.

Lemma cooperative_total {A} (m : M A) : untouched m -> total m -> cooperative m.
Proof. intros Hu Ht w _. split; [apply Ht | apply Hu]. Qed.

Lemma cooperative_run cmd t : cooperative (run cmd t).
Proof.
  intros w Hw. destruct (Hw (clock w) cmd (Some t)) as (p & Hp & Hz).
  split; [|now rewrite run_world].
  exists p. rewrite run_result, Hp, Hz. reflexivity.
Qed.

Lemma total_run_safe cmd t : total (run_safe cmd t).
Proof. intros w. rewrite run_safe_result. eexists. reflexivity. Qed.

Lemma total_sleep n : total (sleep n).
Proof. intros w. now exists tt. Qed.

Lemma total_os_path_exists p : total (os_path_exists p).
Proof. intros w. eexists. reflexivity. Qed.

Lemma total_when b m : total m -> total (when b m).
Proof. destruct b; simpl; [auto | intros _; apply total_ret]. Qed.

Lemma total_write_file p mode text : total (write_file p mode text).
Proof. intros w. eexists. reflexivity. Qed.

Lemma total_append_to_file p text : total (append_to_file p text).
Proof.
  unfold append_to_file. apply total_bind; [apply total_write_file|].
  intros []; auto using total_ret.
  - apply total_bind; [apply total_ask | intros; apply total_print].
  - apply total_bind; [apply total_ask | intros; apply total_print].
Qed.

Lemma total_get_username : total get_username.
Proof. apply total_ask. Qed.

Lemma total_get_uuid d : total (get_uuid d).
Proof.
  intros w. unfold get_uuid, bind, subprocess_run, print, ret, result_of. simpl.
  destruct (spawn (machine w) (clock w) _ None) as [p| |]; try (eexists; reflexivity).
  destruct (returncode p =? 0); eexists; reflexivity.
Qed.

Lemma total_setup_cron_jobs : total setup_cron_jobs.
Proof.
  unfold setup_cron_jobs.
  repeat (apply total_bind; [auto using total_get_username, total_ask, total_append_to_file,
                               total_print | intros]).
  apply total_print.
Qed.

Lemma total_setup_clamav : total setup_clamav.
Proof. intros w. exists tt. apply setup_clamav_returns. Qed.

Lemma cooperative_set_step n : cooperative (set_step n).
Proof. intros w _. rewrite set_step_runs. unpack. split; [now exists tt | reflexivity]. Qed.

Lemma cooperative_for_each {A} (xs : list A) body :
  (forall x, cooperative (body x)) -> cooperative (for_each xs body).
Proof.
  intros H. induction xs as [|x xs IH]; simpl.
  - intros w _. split; [now exists tt | reflexivity].
  - apply cooperative_bind; auto.
Qed.

#[export] Hint Resolve total_run_safe total_sleep total_os_path_exists total_write_file
  total_append_to_file total_get_username total_get_uuid total_setup_cron_jobs
  total_setup_clamav : total.

Ltac always_returns :=
  repeat (intros;
    lazymatch goal with
    | |- total (bind _ _) => apply total_bind
    | |- total (when _ _) => apply total_when
    | |- total (match ?x with _ => _ end) => destruct x
    | |- total _ => solve [auto with total]
    end).

Ltac cooperate :=
  repeat (intros; cbv zeta;
    lazymatch goal with
    | |- cooperative (bind _ _) => apply cooperative_bind
    | |- cooperative (run _ _) => apply cooperative_run
    | |- cooperative (set_step _) => apply cooperative_set_step
    | |- cooperative (for_each _ _) => apply cooperative_for_each
    | |- cooperative (match ?x with _ => _ end) => destruct x
    | |- cooperative _ => apply cooperative_total; [solve [untouch] | solve [always_returns]]
    end).

Lemma cooperative_stage1 : cooperative stage1.
Proof. unfold stage1. cooperate. Qed.

Lemma cooperative_stage5 u mp : cooperative (stage5 u mp).
Proof. unfold stage5. cooperate. Qed.

Lemma cooperative_stage6 u n mp : cooperative (stage6 u n mp).
Proof. unfold stage6. cooperate. Qed.

Lemma cooperative_stage7 : cooperative stage7.
Proof. unfold stage7. cooperate. Qed.

Lemma stage2_progress w :
  obliging (machine w) -> missing_devices_of w = [] -> result_of (stage2 w) = Returned tt.
Proof.
  intros Hw Hm.
  assert (Hrest : cooperative
            (run ["apt-get"; "install"; "-y"; "mdadm"; "smartmontools"; "samba"; "ufw"; "clamav"]
               300;;
             set_step 3;;
             print "[*] 2단계 완료 → 다음 단계 진행")) by cooperate.
  unfold stage2. rewrite !bind_result with (m := print _), !print_result, !print_world.
  rewrite bind_result, validate_devices_result, Hm.
  rewrite (proj2 (validate_devices_world w) Hm).
  destruct (Hrest w Hw) as ([[] H] & _). exact H.
Qed.

Lemma stage3_progress w answer rest :
  obliging (machine w) -> stdin w = answer :: rest -> affirmative answer = true ->
  result_of (stage3 w) = Returned tt.
Proof.
  intros Hw Hin Ha.
  assert (Hrest : forall c : config, cooperative
            (for_each (RAID_DEVICES c)
               (fun device =>
                  print ("[*] " ++ device ++ " 초기화 중...");;
                  run ["wipefs"; "--all"; device] 300;;
                  ret tt);;
             set_step 4)) by cooperate.
  unfold stage3. rewrite (bind_pure (ask cfg) _ w _ eq_refl).
  rewrite bind_result, print_result, print_world.
  rewrite bind_result, confirm_action_result, Hin, Ha.
  match goal with
  | |- context [world_of (confirm_action ?p w)] =>
      destruct (Hrest (cfg (machine w)) (world_of (confirm_action p w))) as ([[] H] & _);
      [now rewrite (proj1 (untouched_confirm_action p w)) | exact H]
  end.
Qed.

Lemma stage4_progress w answer rest :
  obliging (machine w) -> stdin w = answer :: rest -> affirmative answer = true ->
  result_of (stage4 w) = Returned tt.
Proof.
  intros Hw Hin Ha.
  assert (Hrest : forall cmd, cooperative
            (run cmd 300;;
             print "[*] RAID 동기화가 진행 중입니다. 잠시 기다려주세요...";;
             sleep 5;;
             set_step 5)) by cooperate.
  unfold stage4. rewrite (bind_pure (ask cfg) _ w _ eq_refl). cbv zeta.
  rewrite bind_result, print_result, print_world.
  rewrite bind_result, confirm_action_result, Hin, Ha.
  match goal with
  | |- context [result_of ((run ?cmd 300;; _) (world_of (confirm_action ?p w)))] =>
      destruct (Hrest cmd (world_of (confirm_action p w))) as ([[] H] & _);
      [now rewrite (proj1 (untouched_confirm_action p w)) | exact H]
  end.
Qed.

Lemma stages_progress step u n mp w :
  obliging (machine w) -> 1 <= step <= 7 ->
  (step = 2 -> missing_devices_of w = []) ->
  (step = 3 \/ step = 4 ->
   exists answer rest, stdin w = answer :: rest /\ affirmative answer = true) ->
  result_of (stages step u n mp w) = Returned tt.
Proof.
  intros Hw Hs Hd Ha. pick_stage step; simpl.
  - now destruct (cooperative_stage1 w Hw) as ([[] H] & _).
  - apply stage2_progress; auto.
  - destruct Ha as (answer & rest & Hin & Hy); [now left|].
    now apply (stage3_progress w answer rest).
  - destruct Ha as (answer & rest & Hin & Hy); [now right|].
    now apply (stage4_progress w answer rest).
  - now destruct (cooperative_stage5 u mp w Hw) as ([[] H] & _).
  - now destruct (cooperative_stage6 u n mp w Hw) as ([[] H] & _).
  - now destruct (cooperative_stage7 w Hw) as ([[] H] & _).
  - lia.
Qed.

(** X12.  Progress.  On a host where every program that is launched exits
    with status 0, a stage (step 1 to 7) always runs to its end, provided
    that the configured devices exist in stage 2 and that the operator
    answers yes in stages 3 and 4; when in addition the checkpoint file can
    be written, the step read afterwards is the step read before plus 1. *)
Theorem stage_completes_when_commands_succeed :
  forall w,
    obliging (machine w) ->
    1 <= read_step (flag w) <= 7 ->
    (read_step (flag w) = 2 -> missing_devices_of w = []) ->
    (read_step (flag w) = 3 \/ read_step (flag w) = 4 ->
     exists answer rest, stdin w = answer :: rest /\ affirmative answer = true) ->
    result_of (setup w) = Returned tt /\
    (file_write (machine w) FLAG_FILE = WriteDone ->
     read_step (flag (world_of (setup w))) = read_step (flag w) + 1).
Proof.
  intros w Hw Hs Hd Ha.
  destruct (setup_launches w) as (network & _ & -> & ->).
  pose proof (stages_progress (read_step (flag w)) (username_of w) network (mount_point_of w)
                (launched w) Hw Hs Hd Ha) as Hr.
  split; [exact Hr|]. intros Hf.
  rewrite (stages_commits _ (username_of w) network (mount_point_of w) Hs (launched w) Hf).
  - apply read_step_str.
  - now exists tt.
Qed.

Lemma stage_completes_when_commands_succeed_witness :
  result_of (setup (pi (Content "3") ["yes"])) = Returned tt /\
  (file_write (machine (pi (Content "3") ["yes"])) FLAG_FILE = WriteDone ->
   read_step (flag (world_of (setup (pi (Content "3") ["yes"])))) = 3 + 1).
Proof.
  apply (stage_completes_when_commands_succeed (pi (Content "3") ["yes"])).
  - intros n argv t. exists (mkCompleted 0 EmptyString EmptyString). split; reflexivity.
  - vm_compute. split; discriminate.
  - intros H. vm_compute in H. discriminate H.
  - intros _. exists "yes", []. split; reflexivity.
Defined.
(* ================================================================== *)
(** ** The scan log *)
(* ================================================================== *)





(* ================================================================== *)
(** ** Seven invocations *)
(* ================================================================== *)

Lemma validate_config_world w : world_of (validate_config w) = w.
Proof.
  unfold validate_config, bind, print, ask, sys_exit, world_of. simpl.
  destruct (level_allowed (RAID_LEVEL (cfg (machine w)))); [|reflexivity].
  simpl. now destruct (cardinality_error _ _).
Qed.

Lemma validate_config_accepts w :
  cardinality_rule (RAID_LEVEL (cfg (machine w)))
    (Z.of_nat (List.length (RAID_DEVICES (cfg (machine w))))) ->
  result_of (validate_config w) = Returned tt.
Proof.
  intros H. rewrite validate_config_result.
  rewrite (cardinality_rule_allowed _ _ H).
  apply (cardinality_error_none _ _ (cardinality_rule_allowed _ _ H)) in H. now rewrite H.
Qed.

Lemma ready_devices w : ready (machine w) -> missing_devices_of w = [].
Proof.
  intros (_ & _ & _ & _ & Hd). unfold missing_devices_of.
  induction (RAID_DEVICES (cfg (machine w))) as [|device rest IH]; [reflexivity|].
  simpl. destruct (Hd device (or_introl eq_refl)) as [Hf Hp].
  unfold present at 1. rewrite Hf, Hp. simpl.
  apply IH. intros d Hin. apply Hd. now right.
Qed.

Lemma main_advances w :
  ready (machine w) -> 1 <= read_step (flag w) <= 7 ->
  (read_step (flag w) = 3 \/ read_step (flag w) = 4 ->
   exists answer rest, stdin w = answer :: rest /\ affirmative answer = true) ->
  read_step (flag (world_of (main w))) = read_step (flag w) + 1.
Proof.
  intros Hr Hs Ha. pose proof Hr as (Ho & He & Hw & Hc & Hd).
  assert (Hv : result_of (when (read_step (flag w) =? 1) validate_config w) = Returned tt /\
               world_of (when (read_step (flag w) =? 1) validate_config w) = w).
  { destruct (read_step (flag w) =? 1); simpl; [|now split].
    split; [now apply validate_config_accepts | apply validate_config_world]. }
  destruct Hv as [Hv1 Hv2].
  destruct (setup_launches w) as (network & _ & Hres & Hwor).
  assert (Hsetup : result_of (setup w) = Returned tt).
  { rewrite Hres. apply stages_progress; auto. intros _. now apply ready_devices. }
  assert (Hflag : flag (world_of (setup w)) = Content (str (read_step (flag w) + 1))).
  { rewrite Hwor.
    apply (stages_commits _ (username_of w) network (mount_point_of w) Hs (launched w) Hw).
    exists tt. now rewrite <- Hres. }
  unfold main.
  rewrite (bind_pure check_root _ w tt (check_root_as_root w He)).
  rewrite (bind_pure get_step _ w (read_step (flag w)) eq_refl).
  rewrite bind_world, Hv1, Hv2, bind_world, Hsetup.
  assert (Hk : untouched (step <- get_step;; if step >=? 8 then start_dashboard else ret tt)).
  { apply untouched_bind; [apply untouched_get_step|].
    intros step. destruct (step >=? 8); [apply untouched_start_dashboard | apply untouched_ret]. }
  change (read_step
            (flag (world_of ((step <- get_step;;
                              if step >=? 8 then start_dashboard else ret tt)
                               (world_of (setup w)))))
          = read_step (flag w) + 1).
  rewrite (proj1 (proj2 (Hk (world_of (setup w))))), Hflag.
  apply read_step_str.
Qed.

Lemma reinvoke_advances w :
  ready (machine w) -> 1 <= read_step (flag w) <= 7 ->
  (read_step (flag w) = 3 \/ read_step (flag w) = 4 ->
   exists answer rest, stdin w = answer :: rest /\ affirmative answer = true) ->
  ready (machine (reinvoke w)) /\
  read_step (flag (reinvoke w)) = read_step (flag w) + 1 /\
  stdin (reinvoke w) = ["yes"].
Proof.
  intros Hr Hs Ha. split; [exact Hr|]. split; [|reflexivity].
  now apply main_advances.
Qed.

(** X20.  On a host that is ready for the installation (root, every program
    exiting with status 0, the checkpoint file writable, a configuration
    that satisfies the rule of its RAID level, its devices existing), with
    an operator who answers yes, the installation that starts at step 1 is
    at step [1 + n] after [n] invocations of the main program, for [n] up
    to 7: one stage per invocation, step 8 after the seventh, and step 8
    still after any further invocation. *)
Theorem seven_invocations_complete_the_installation :
  forall w,
    ready (machine w) -> read_step (flag w) = 1 ->
    (forall n, (n <= 7)%nat ->
               read_step (flag (invocations n w)) = 1 + Z.of_nat n) /\
    (forall n, (7 <= n)%nat -> read_step (flag (invocations n w)) = 8).
Proof.
  intros w Hr Hs.
  assert (Hstep : forall n v, (n <= 7)%nat ->
            ready (machine v) -> 1 <= read_step (flag v) ->
            read_step (flag v) + Z.of_nat n <= 8 ->
            (read_step (flag v) = 3 \/ read_step (flag v) = 4 ->
             exists answer rest, stdin v = answer :: rest /\ affirmative answer = true) ->
            read_step (flag (invocations n v)) = read_step (flag v) + Z.of_nat n /\
            ready (machine (invocations n v))).
  { induction n as [|n IH]; intros v Hn Hv H1 H8 Ha.
    - simpl. split; [lia | exact Hv].
    - simpl invocations.
      destruct (reinvoke_advances v Hv) as (Hr' & Hs' & Hi'); [lia | exact Ha |].
      destruct (IH (reinvoke v)) as [E R]; try lia; auto.
      + intros _. exists "yes", []. split; [exact Hi' | reflexivity].
      + split; [rewrite E, Hs'; lia | exact R]. }
  assert (Hstay : forall n v, 8 <= read_step (flag v) ->
                              read_step (flag (invocations n v)) = read_step (flag v)).
  { induction n as [|n IH]; intros v Hv; [reflexivity|].
    simpl invocations.
    assert (E : flag (reinvoke v) = flag v).
    { unfold reinvoke. simpl flag.
      destruct (main_world v) as [H | (w1 & H1 & ->)]; [exact H|].
      destruct (setup_advance w1) as [H | (H & _)]; rewrite H1 in *; [exact H | lia]. }
    rewrite IH; rewrite E; [reflexivity | exact Hv]. }
  split.
  - intros n Hn. destruct (Hstep n w Hn Hr) as [E _]; lia.
  - intros n Hn. replace n with (7 + (n - 7))%nat by lia.
    assert (Hsplit : forall a b v, invocations (a + b) v = invocations b (invocations a v)).
    { induction a as [|a IHa]; intros b v; [reflexivity | simpl; apply IHa]. }
    rewrite Hsplit, Hstay.
    + destruct (Hstep 7%nat w (le_n 7) Hr) as [E _]; lia.
    + destruct (Hstep 7%nat w (le_n 7) Hr) as [E _]; lia.
Qed.

Lemma seven_invocations_complete_the_installation_witness :
  read_step (flag (invocations 7 (pi Absent []))) = 8.
Proof.
  assert (Hr : ready (machine (pi Absent []))).
  { repeat split.
    - intros n argv t. exists (mkCompleted 0 EmptyString EmptyString). split; reflexivity.
    - right. right. left. repeat split; vm_compute; congruence.
    - simpl in H. destruct H as [<- | [<- | [<- | [<- | []]]]]; reflexivity. }
  destruct (seven_invocations_complete_the_installation (pi Absent []) Hr eq_refl) as [_ H].
  exact (H 7%nat (le_n 7)).
Defined.
